(** * BrainVault: the vector knowledge store

    A shallow embedding of [utils/database.py] (class [VectorDB]) and of
    [generate_embeddings] from [utils/summarizer.py], together with the
    properties of the store that the specification states.

    Conventions of the embedding.
    - Python [float]/[numpy.float32] values are idealised as exact rationals
      ([Q]): rounding is left out, and a vector holds finite values, so
      [astype('float32')] is the identity.  Overflow is not left out: a
      distance computed by the index is a [faiss.float32], which is [inf]
      once the sum exceeds [FLT_MAX].  Equality of numeric results is [Qeq]
      ([==]); the results below only use the order and the field laws.
    - faiss, hashlib and numpy.random are external: the index is modelled
      from its documented behaviour, the hash and the generator are an
      interface ([Numpy]) of which every theorem is independent.
    - Python [dict] objects live in a heap of objects ([list item], the
      address of an object is its position); a Python list of dicts is a
      list of addresses, so aliasing and [dict.copy()] are visible.
    - A method is a computation in the monad [M]: it threads the program
      state and either returns a value or raises. *)

From stdpp Require Import base list strings gmap sorting.
From Stdlib Require Import QArith Lqa Lia.
Close Scope Q_scope.

(** ** Numbers *)

#[global] Instance Q_inhabited : Inhabited Q := populate 0%Q.

(** Python [max(xs)] on a non-empty list: the first maximal element. *)
Definition py_max (x : Q) (xs : list Q) : Q :=
  foldl (λ m y, if Qlt_le_dec m y then y else m) x xs.

(** ** The faiss library: [IndexFlatL2]

    faiss is an external library; this is its documented behaviour for the
    exact (brute force) L2 index: vectors are kept in insertion order, the
    metric is the squared Euclidean distance in single precision, [search]
    returns exactly [k] (distance, label) pairs in ascending distance.  The
    results are collected in a heap whose entries start at label [-1] and
    distance [FLT_MAX]; a vector enters it only when its distance is below
    the largest distance held.  So a vector whose distance is [FLT_MAX] or
    has overflowed to [inf] is never returned, and when fewer than [k]
    vectors have entered, the missing entries carry label [-1] and distance
    [FLT_MAX].  The order among equidistant vectors is that of the sort used
    here; no result depends on it. *)
Module faiss.

Definition vec := list Q.

Definition FLT_MAX : Q := 340282346638528859811704183484516925440%Q.

(** The result of a single-precision computation on non-negative terms: a
    finite value, or [inf] after an overflow. *)
Inductive float32 :=
  | finite (q : Q)
  | inf.


Definition sqdiff (a b : Q) : Q := ((a - b) * (a - b))%Q.

(** The squared distance as a sum of non-negative terms: once the sum
    exceeds [FLT_MAX] the accumulator is [inf], and stays so. *)
Definition fvec_L2sqr (x y : vec) : float32 :=
  let s := foldr Qplus 0%Q (zip_with sqdiff x y) in
  if Qlt_le_dec FLT_MAX s then inf else finite s.

(** An [IndexFlatL2] of dimension [d]. *)
Record IndexFlatL2 := { d : nat; xb : list vec }.

Definition ntotal (ix : IndexFlatL2) : nat := length (xb ix).

Definition new (dim : nat) : IndexFlatL2 := {| d := dim; xb := [] |}.

(** [index.add(x)] for a one-row array [x]; the Python wrapper asserts
    that the row has the dimension of the index. *)
Definition add (ix : IndexFlatL2) (x : vec) : option IndexFlatL2 :=
  if decide (length x = d ix)
  then Some {| d := d ix; xb := xb ix ++ [x] |}
  else None.

Definition by_distance (a b : Q * Z) : Prop := (a.1 <= b.1)%Q.

#[global] Instance by_distance_dec : RelDecision by_distance.
Proof.
  intros a b. unfold by_distance.
  destruct (Qlt_le_dec b.1 a.1) as [Hlt|Hle].
  - right. apply Qlt_not_le. exact Hlt.
  - left. exact Hle.
Defined.

(** Every stored vector with its distance to the query and its label. *)
Definition scan (ix : IndexFlatL2) (x : vec) : list (float32 * Z) :=
  imap (λ i y, (fvec_L2sqr x y, Z.of_nat i)) (xb ix).

(** A distance below [FLT_MAX], the distance of the entries the result
    heap starts with. *)
Definition below_max (a : float32) : option Q :=
  match a with
  | finite s => if Qlt_le_dec s FLT_MAX then Some s else None
  | inf => None
  end.

(** The candidates that can enter the result heap. *)
Definition admitted (p : float32 * Z) : option (Q * Z) :=
  (λ s, (s, p.2)) <$> below_max p.1.

(** The [k] nearest stored vectors among the admitted ones, nearest
    first. *)
Definition knn (ix : IndexFlatL2) (x : vec) (k : nat) : list (Q * Z) :=
  take k (merge_sort by_distance (omap admitted (scan ix x))).

(** [D, I = index.search(x, k)] for a one-row query: [None] when one of
    the wrapper's assertions ([d == self.d], [k > 0]) fails, otherwise the
    rows [D[0]] and [I[0]]. *)
Definition search (ix : IndexFlatL2) (x : vec) (k : Z)
  : option (list Q * list Z) :=
  if decide (length x = d ix) then
    if decide (0 < k)%Z then
      let hits := knn ix x (Z.to_nat k) in
      let row := hits ++ replicate (Z.to_nat k - length hits) (FLT_MAX, (-1)%Z) in
      Some (row.*1, row.*2)
    else None
  else None.

End faiss.

(** ** hashlib and numpy.random

    [generate_embeddings] hashes the text with MD5 and seeds numpy's global
    generator with the hash; both are external.  Their interface: the integer
    value of the MD5 hex digest, the generator state obtained from a seed,
    and one standard-normal draw, which advances the generator. *)
Class Numpy := {
  hashlib_md5_int : string → Z;
  RandomState : Type;
  np_random_seed : Z → RandomState;
  np_random_draw : RandomState → Q * RandomState;
}.

(** ** Objects and program state *)

(** A metadata record is a Python dict with the keys [id], [topic],
    [content], [source], [date]; a search result is a copy of such a dict
    with the extra key [score]. *)
Record item := {
  id : Z;
  topic : string;
  content : string;
  source : string;
  date : string;
  score : option Q;
}.

#[global] Instance item_inhabited : Inhabited item :=
  populate {| id := 0; topic := ""; content := ""; source := "";
              date := ""; score := None |}.

(** [item["id"] = i] and [item["score"] = s] on a dict value. *)
Definition with_id (i : Z) (r : item) : item :=
  {| id := i; topic := topic r; content := content r; source := source r;
     date := date r; score := score r |}.

Definition with_score (s : Q) (r : item) : item :=
  {| id := id r; topic := topic r; content := content r; source := source r;
     date := date r; score := Some s |}.

(** Address of a dict object in the heap. *)
Abbreviation loc := nat.

(** The profile directory [data/<profile>/]: [faiss_index.bin] and
    [metadata.json], each absent or holding what was last written. *)
Record storage := {
  index_file : option faiss.IndexFlatL2;
  metadata_file : option (list item);
}.

Inductive exn := AssertionError.

Inductive outcome (A : Type) :=
  | Ok (a : A)
  | Raise (e : exn).
Arguments Ok {A} a.
Arguments Raise {A} e.

Section program.
Context `{Numpy}.

(** The state a [VectorDB] method runs in: the object heap, numpy's global
    generator, the profile directory and the two attributes of [self]. *)
Record state := {
  heap : list item;
  np_random : RandomState;
  files : storage;
  index : faiss.IndexFlatL2;
  metadata : list loc;
}.

Definition set_heap (h : list item) (st : state) : state :=
  {| heap := h; np_random := np_random st; files := files st;
     index := index st; metadata := metadata st |}.
Definition set_np_random (g : RandomState) (st : state) : state :=
  {| heap := heap st; np_random := g; files := files st;
     index := index st; metadata := metadata st |}.
Definition set_files (f : storage) (st : state) : state :=
  {| heap := heap st; np_random := np_random st; files := f;
     index := index st; metadata := metadata st |}.
Definition set_index (ix : faiss.IndexFlatL2) (st : state) : state :=
  {| heap := heap st; np_random := np_random st; files := files st;
     index := ix; metadata := metadata st |}.
Definition set_metadata (md : list loc) (st : state) : state :=
  {| heap := heap st; np_random := np_random st; files := files st;
     index := index st; metadata := md |}.

(** *** The monad of methods *)

Definition M (A : Type) : Type := state → outcome A * state.

Definition ret {A} (a : A) : M A := λ st, (Ok a, st).
Definition bind {A B} (m : M A) (k : A → M B) : M B :=
  λ st, match m st with
        | (Ok a, st') => k a st'
        | (Raise e, st') => (Raise e, st')
        end.
Definition raise {A} (e : exn) : M A := λ st, (Raise e, st).
Definition gets {A} (f : state → A) : M A := λ st, (Ok (f st), st).
Definition modify (f : state → state) : M unit := λ st, (Ok tt, f st).

(** *** Heap primitives *)

(** Creating a dict object. *)
Definition alloc (r : item) : M loc :=
  λ st, (Ok (length (heap st)), set_heap (heap st ++ [r]) st).

(** Reading a dict object. *)
Definition deref (h : list item) (l : loc) : item := h !!! l.

(** [d.copy()]: a new object with the same keys and values. *)
Definition dict_copy (l : loc) : M loc :=
  λ st, alloc (deref (heap st) l) st.

(** [d[key] = v]: in-place update of the object at [l]. *)
Definition dict_update (f : item → item) (l : loc) : M unit :=
  modify (λ st, set_heap (<[l := f (deref (heap st) l)]> (heap st)) st).

End program.

Arguments state {_}.
Arguments M {_} A.

(** [M] with stdpp's monad notations: [x ← m; k] and [m;; k]. *)
#[global] Instance M_ret `{Numpy} : MRet M := @ret _.
#[global] Instance M_bind `{Numpy} : MBind M := λ A B k m, bind m k.

(** ** [utils/summarizer.py]: [generate_embeddings] *)

Section summarizer.
Context `{Numpy}.

(** [np.random.randn(n)]: [n] consecutive draws from a generator. *)
Fixpoint randn (n : nat) (g : RandomState) : list Q * RandomState :=
  match n with
  | O => ([], g)
  | S n' =>
      let '(x, g1) := np_random_draw g in
      let '(xs, g2) := randn n' g1 in
      (x :: xs, g2)
  end.

(** [hash_val], the seed derived from the text. *)
Definition hash_val (text : string) : Z :=
  (hashlib_md5_int text `mod` 10 ^ 8)%Z.

(** The vector drawn for a text, as a function of the text alone. *)
Definition embedding_of (text : string) : faiss.vec :=
  (randn 64 (np_random_seed (hash_val text))).1.

(** [np.random.seed(s)] and [np.random.randn(n)] act on the global
    generator. *)
Definition seed_global (s : Z) : M unit :=
  modify (set_np_random (np_random_seed s)).

Definition randn_global (n : nat) : M faiss.vec :=
  λ st, let '(xs, g) := randn n (np_random st) in (Ok xs, set_np_random g st).

Definition generate_embeddings (text : string) : M faiss.vec :=
  seed_global (hash_val text);;
  randn_global 64.

End summarizer.

(** ** [utils/database.py]: class [VectorDB] *)

Module VectorDB.
Section methods.
Context `{Numpy}.

(** [faiss.write_index], [json.dump], [json.load]. *)
Definition write_index (ix : faiss.IndexFlatL2) : M unit :=
  modify (λ st, set_files {| index_file := Some ix;
                             metadata_file := metadata_file (files st) |} st).

Definition json_dump (rs : list item) : M unit :=
  modify (λ st, set_files {| index_file := index_file (files st);
                             metadata_file := Some rs |} st).

Fixpoint json_load (rs : list item) : M (list loc) :=
  match rs with
  | [] => ret []
  | r :: rs' => l ← alloc r; ls ← json_load rs'; ret (l :: ls)
  end.

(** [self.index.add(...)] on the index held by [self]. *)
Definition index_add (x : faiss.vec) : M unit :=
  ix ← gets index;
  match faiss.add ix x with
  | Some ix' => modify (set_index ix')
  | None => raise AssertionError
  end.

(** [VectorDB.__init__], lines 27-34: load both files when both exist,
    otherwise start from an empty index of dimension 64. *)
Definition __init__ : M unit :=
  fs ← gets files;
  match index_file fs, metadata_file fs with
  | Some ix, Some rs =>
      modify (set_index ix);;
      ls ← json_load rs;
      modify (set_metadata ls)
  | _, _ =>
      modify (set_index (faiss.new 64));;
      modify (set_metadata [])
  end.

(** [VectorDB.save]: the index file is written first, then the metadata. *)
Definition save : M unit :=
  ix ← gets index;
  write_index ix;;
  md ← gets metadata;
  h ← gets heap;
  json_dump (deref h <$> md).

(** [VectorDB.add]; [now] is the reading of [time.strftime] at the call. *)
Definition add (topic content source : string)
    (embeddings : option faiss.vec) (now : string) : M Z :=
  embeddings ← match embeddings with
               | None => generate_embeddings content
               | Some e => ret e
               end;
  index_add embeddings;;
  md ← gets metadata;
  let idx := Z.of_nat (length md) in
  r ← alloc {| id := idx; topic := topic; content := content;
               source := source; date := now; score := None |};
  modify (set_metadata (md ++ [r]));;
  save;;
  ret idx.

(** Line 109: the guard on a label returned by the index. *)
Definition valid_label (n : nat) (idx : Z) : bool :=
  bool_decide (0 ≤ idx)%Z && bool_decide (idx < Z.of_nat n)%Z.

(** Line 112: [max(distances[0]) if len(distances[0]) > 0 else 1]. *)
Definition max_distance (distances : list Q) : Q :=
  match distances with
  | x :: xs => py_max x xs
  | [] => 1%Q
  end.

(** Line 113: [1 - (distance / max_distance) if max_distance > 0 else 0]. *)
Definition similarity (max_distance distance : Q) : Q :=
  if Qlt_le_dec 0%Q max_distance
  then (1 - distance / max_distance)%Q
  else 0%Q.

(** The loop of [search], lines 108-118. *)
Fixpoint search_loop (distances : list Q) (i : nat) (indices : list Z)
    (results : list loc) : M (list loc) :=
  match indices with
  | [] => ret results
  | idx :: rest =>
      md ← gets metadata;
      if valid_label (length md) idx then
        let max_distance := max_distance distances in
        let similarity := similarity max_distance (distances !!! i) in
        result ← dict_copy (md !!! Z.to_nat idx);
        dict_update (with_score similarity) result;;
        search_loop distances (S i) rest (results ++ [result])
      else search_loop distances (S i) rest results
  end.

(** [VectorDB.search]. *)
Definition search (query : string) (top_k : Z) : M (list loc) :=
  md ← gets metadata;
  if decide (length md = 0) then ret [] else
  query_vector ← generate_embeddings query;
  let k := Z.min top_k (Z.of_nat (length md)) in
  ix ← gets index;
  match faiss.search ix query_vector k with
  | None => raise AssertionError
  | Some (distances, indices) => search_loop distances 0 indices []
  end.

(** [VectorDB.get_all_topics]: [list(set(...))], in the order in which the
    set enumerates its elements. *)
Definition get_all_topics : M (list string) :=
  md ← gets metadata;
  h ← gets heap;
  ret (elements (list_to_set ((λ l, topic (deref h l)) <$> md) : gset string)).

(** [VectorDB.get_by_topic]: the matching stored objects themselves. *)
Definition get_by_topic (t : string) : M (list loc) :=
  md ← gets metadata;
  h ← gets heap;
  ret (filter (λ l, topic (deref h l) = t) md).

(** The loop of [delete_by_topic], lines 167-174. *)
Fixpoint rebuild_loop (i : nat) (keep_items : list loc)
    (new_index : faiss.IndexFlatL2) (new_metadata : list loc)
  : M (faiss.IndexFlatL2 * list loc) :=
  match keep_items with
  | [] => ret (new_index, new_metadata)
  | item :: rest =>
      h ← gets heap;
      embeddings ← generate_embeddings (content (deref h item));
      match faiss.add new_index embeddings with
      | None => raise AssertionError
      | Some new_index' =>
          new_item ← dict_copy item;
          dict_update (with_id (Z.of_nat i)) new_item;;
          rebuild_loop (S i) rest new_index' (new_metadata ++ [new_item])
      end
  end.

(** [VectorDB.delete_by_topic]. *)
Definition delete_by_topic (t : string) : M bool :=
  md ← gets metadata;
  h ← gets heap;
  let keep_items := filter (λ l, topic (deref h l) ≠ t) md in
  if decide (length keep_items = length md) then ret false else
  '(new_index, new_metadata) ← rebuild_loop 0 keep_items (faiss.new 64) [];
  modify (set_index new_index);;
  modify (set_metadata new_metadata);;
  save;;
  ret true.

End methods.
End VectorDB.

(** [create_or_load_vector_db], [search_vector_db]. *)
Definition create_or_load_vector_db `{Numpy} : M unit := VectorDB.__init__.

Definition search_vector_db `{Numpy} (query : string) (top_k : Z)
    (exact_match : bool) : M (list loc) :=
  if exact_match then VectorDB.get_by_topic query
  else VectorDB.search query top_k.


(** ** Observations on a state *)

Section observations.
Context `{Numpy}.

(** The metadata sequence as values: what [json.dump] writes. *)
Definition records (st : state) : list item :=
  deref (heap st) <$> metadata st.

(** [record[i].id == i] for every position [i]. *)
Definition positional (rs : list item) : Prop :=
  id <$> rs = Z.of_nat <$> seq 0 (length rs).

(** Every reference held by [self.metadata] points to an object of the
    heap, as every Python reference does. *)
Definition allocated (st : state) : Prop :=
  Forall (λ l, l < length (heap st)) (metadata st).

(** Moreover the index has the dimension of the embeddings. *)
Definition well_formed (st : state) : Prop :=
  faiss.d (index st) = 64 ∧ allocated st.

(** The consistency contract of the store. *)
Definition consistent (st : state) : Prop :=
  length (metadata st) = faiss.ntotal (index st) ∧
  positional (records st).

(** The same contract for a persisted pair; nothing is required when a
    file is missing. *)
Definition files_consistent (fs : storage) : Prop :=
  match index_file fs, metadata_file fs with
  | Some ix, Some rs =>
      faiss.d ix = 64 ∧ length rs = faiss.ntotal ix ∧ positional rs
  | _, _ => True
  end.

(** The store has just been created empty. *)
Definition empty_store (st : state) : Prop :=
  index st = faiss.new 64 ∧ metadata st = [].

(** The generator after [generate_embeddings text]. *)
Definition generator_after (text : string) : RandomState :=
  (randn 64 (np_random_seed (hash_val text))).2.

(** Line 101: the number of neighbours requested from the index. *)
Definition requested (st : state) (top_k : Z) : Z :=
  Z.min top_k (Z.of_nat (length (metadata st))).

(** What the index returns for a query: the pairs (distance, label) of
    the rows [D[0]], [I[0]]. *)
Definition neighbours (st : state) (query : string) (top_k : Z)
  : list (Q * Z) :=
  match faiss.search (index st) (embedding_of query) (requested st top_k) with
  | Some (distances, indices) => zip distances indices
  | None => []
  end.

(** No stored vector is so far from the query that its distance reaches
    [FLT_MAX]: the index can return each of them. *)
Definition in_range (st : state) (query : string) : Prop :=
  Forall (λ v, is_Some (faiss.below_max
                          (faiss.fvec_L2sqr (embedding_of query) v)))
         (faiss.xb (index st)).

(** The neighbours that pass the guard of line 109. *)
Definition hits (st : state) (query : string) (top_k : Z) : list (Q * Z) :=
  filter (λ p, VectorDB.valid_label (length (metadata st)) p.2)
         (neighbours st query top_k).

(** The normaliser of the scores of a query. *)
Definition normaliser (st : state) (query : string) (top_k : Z) : Q :=
  VectorDB.max_distance (neighbours st query top_k).*1.

(** The record a hit stands for, with its score attached. *)
Definition scored (st : state) (m : Q) (p : Q * Z) : item :=
  with_score (VectorDB.similarity m p.1) (records st !!! Z.to_nat p.2).

End observations.

(** The pairs (distance, label) for which the loop of [search] appends a
    result, when it runs from position [i] over the labels [indices]. *)
Fixpoint loop_hits (n : nat) (distances : list Q) (i : nat) (indices : list Z)
  : list (Q * Z) :=
  match indices with
  | [] => []
  | idx :: rest =>
      if VectorDB.valid_label n idx
      then (distances !!! i, idx) :: loop_hits n distances (S i) rest
      else loop_hits n distances (S i) rest
  end.

Section observations_delete.
Context `{Numpy}.

(** The generator after embedding the texts [ts] one after the other. *)
Definition generator_after_all (g : RandomState) (ts : list string)
  : RandomState :=
  foldl (λ _ t, generator_after t) g ts.

(** The records that [delete_by_topic t] keeps. *)
Definition survivors (t : string) (rs : list item) : list item :=
  filter (λ r, topic r ≠ t) rs.

(** The records [rs] with the ids [i], [i + 1], ... *)
Definition renumber (i : nat) (rs : list item) : list item :=
  imap (λ j r, with_id (Z.of_nat (i + j)) r) rs.

End observations_delete.

(** ** Operations that change the store *)

Inductive op :=
  | Load
  | Add (topic content source : string) (embeddings : option faiss.vec)
        (now : string)
  | Delete (topic : string).

(** The operation returned normally, taking the state [st] to [st']. *)
Definition committed `{Numpy} (o : op) (st st' : state) : Prop :=
  match o with
  | Load => create_or_load_vector_db st = (Ok tt, st')
  | Add t c s e now => ∃ idx, VectorDB.add t c s e now st = (Ok idx, st')
  | Delete t => ∃ b, VectorDB.delete_by_topic t st = (Ok b, st')
  end.

(** The state in which a computation leaves the program. *)
Definition after `{Numpy} {A} (m : M A) (st : state) : state := (m st).2.

(** ** A concrete instance of the external interface

    Used to run the model on examples: a polynomial string hash in place of
    MD5 and a linear congruential generator in place of numpy's.  Every
    theorem below is stated for an arbitrary instance. *)
Module Sample.

Fixpoint poly_hash (s : string) (acc : Z) : Z :=
  match s with
  | EmptyString => acc
  | String c s' => poly_hash s' ((acc * 131 + Z.of_nat (Ascii.nat_of_ascii c)) `mod` 4294967291)%Z
  end.

Definition lcg_next (g : Z) : Z := ((g * 1103515245 + 12345) `mod` 2147483648)%Z.

Definition lcg_draw (g : Z) : Q * Z :=
  let g' := lcg_next g in
  (inject_Z (g' `mod` 2001 - 1000), g').

#[global] Instance numpy : Numpy := {|
  hashlib_md5_int s := poly_hash s 7;
  RandomState := Z;
  np_random_seed s := s;
  np_random_draw := lcg_draw;
|}.

(** A process that has just started: nothing allocated, nothing on disk. *)
Definition fresh : state := {|
  heap := [];
  np_random := 0%Z;
  files := {| index_file := None; metadata_file := None |};
  index := faiss.new 0;
  metadata := [];
|}.

End Sample.

Module Scenario.
Import Sample.

(** The scenario of the specification: two notes are added to a new
    profile. *)
Definition loaded : state := after VectorDB.__init__ fresh.

Definition cats : state :=
  after (VectorDB.add "Cats" "Cats are mammals. They purr." "manual" None
           "2024-01-01 10:00:00") loaded.

Definition cats_dogs : state :=
  after (VectorDB.add "Dogs" "Dogs are mammals. They bark." "manual" None
           "2024-01-01 10:05:00") cats.

(** The store after [search("mammals", top_k=2)]. *)
Definition searched : state :=
  after (VectorDB.search "mammals" 2) cats_dogs.

(** Three notes with the topics A, A, B. *)
Definition a_a_b : state :=
  after (VectorDB.add "B" "third" "" None "2024-01-02 09:02:00")
    (after (VectorDB.add "A" "second" "" None "2024-01-02 09:01:00")
       (after (VectorDB.add "A" "first" "" None "2024-01-02 09:00:00")
          loaded)).

(** The store after the topic Cats is deleted. *)
Definition dogs : state :=
  after (VectorDB.delete_by_topic "Cats") cats_dogs.

(** [save] writes the index file before the metadata file.  When the
    process stops between the two writes of that deletion, the directory
    holds the rebuilt index, with one vector, and the metadata written
    before, with two records. *)
Definition torn_files : storage :=
  {| index_file := index_file (files dogs);
     metadata_file := metadata_file (files cats_dogs) |}.

(** A new process started on that directory, and its store once loaded. *)
Definition restarted : state := set_files torn_files fresh.

Definition reloaded : state := after create_or_load_vector_db restarted.

Definition reloaded_searched : state :=
  after (VectorDB.search "mammals" 2) reloaded.

(** Two notes added with pre-computed vectors that are far apart: the zero
    vector and the vector with every component [1e20].  The squared
    distance from an embedded text to the second exceeds [FLT_MAX]. *)
Definition far_apart : state :=
  after (VectorDB.add "Far" "far" ""
           (Some (replicate 64 100000000000000000000%Q))
           "2024-01-03 09:01:00")
    (after (VectorDB.add "Near" "near" "" (Some (replicate 64 0%Q))
              "2024-01-03 09:00:00") loaded).

Definition far_apart_searched : state :=
  after (VectorDB.search "mammals" 2) far_apart.

End Scenario.


(** ** The functions of [utils/database.py] around the class *)

(** [add_to_vector_db]: the [profile] argument is not used, and the
    content is always embedded by [generate_embeddings]. *)
Definition add_to_vector_db `{Numpy}
    (topic content source profile now : string) : M Z :=
  VectorDB.add topic content source None now.

(** [get_all_topics(db)]. *)
Definition get_all_topics `{Numpy} : M (list string) :=
  VectorDB.get_all_topics.

(** Position [i] of the index holds the embedding of the content of
    record [i]. *)
Definition aligned `{Numpy} (st : state) : Prop :=
  faiss.xb (index st) = embedding_of ∘ content <$> records st.

(** The same for a persisted pair. *)
Definition files_aligned `{Numpy} (fs : storage) : Prop :=
  match index_file fs, metadata_file fs with
  | Some ix, Some rs => faiss.xb ix = embedding_of ∘ content <$> rs
  | _, _ => True
  end.

(** The records with a given topic. *)
Definition with_topic (t : string) (rs : list item) : list item :=
  filter (λ r, topic r = t) rs.


(** ** Python strings

    [str.split(sep)] for a non-empty separator: the pieces between the
    leftmost, non-overlapping occurrences of [sep].  [split_aux sep skip s]
    is the first piece of [s] and the pieces after it, once [skip]
    characters (the rest of a separator) are dropped. *)
Fixpoint split_aux (sep : string) (skip : nat) (s : string)
  : string * list string :=
  match s with
  | EmptyString => (EmptyString, [])
  | String c s' =>
      match skip with
      | S k => split_aux sep k s'
      | O =>
          if String.prefix sep s
          then let '(p, ps) := split_aux sep (String.length sep - 1) s' in
               (EmptyString, p :: ps)
          else let '(p, ps) := split_aux sep 0 s' in
               (String c p, ps)
      end
  end.

Definition split (sep s : string) : list string :=
  let '(p, ps) := split_aux sep 0 s in p :: ps.

(** [sep.join(pieces)]. *)
Definition join (sep : string) (pieces : list string) : string :=
  String.concat sep pieces.

(** [str.split()] without argument and [str.lower()] follow the Unicode
    tables; they are taken as an interface. *)
Class PyStr := {
  str_words : string → list string;
  str_lower : string → string;
}.

(** ** [utils/summarizer.py]: sentences, [summarize_text], [answer_question] *)

(** [sentences = text.split('. ')] then
    [[s + '.' for s in sentences if s]]. *)
Definition sentences_of (text : string) : list string :=
  (λ s, s +:+ ".") <$> filter (λ s, s ≠ EmptyString) (split ". " text).

(** [xs[-1]] on a non-empty list. *)
Definition py_last (xs : list string) : string := default EmptyString (last xs).

(** [xs.insert(1, x)]. *)
Definition insert_at_1 (x : string) (xs : list string) : list string :=
  take 1 xs ++ x :: drop 1 xs.

Section summarizer_text.
Context `{PyStr}.

(** [len(text.split())]. *)
Definition word_count (text : string) : nat := length (str_words text).

(** [summarize_text], lines 56-94. *)
Definition summarize_text (text : string) (max_length min_length : Z)
  : string :=
  if decide (word_count text < 100) then text else
  let sentences := sentences_of text in
  if decide (length sentences ≤ 3) then text else
  let summary_sentences := [sentences !!! 0] in
  let middle_idx := length sentences `div` 2 in
  let summary_sentences := summary_sentences ++ [sentences !!! middle_idx] in
  let summary_sentences :=
    if decide (3 < length sentences ∧ py_last sentences ∉ summary_sentences)
    then summary_sentences ++ [py_last sentences]
    else summary_sentences in
  let summary := join " " summary_sentences in
  let '(summary_sentences, summary) :=
    if decide ((Z.of_nat (word_count summary) < min_length)%Z
               ∧ 3 < length sentences)
    then
      let quarter_idx := length sentences `div` 4 in
      if decide (sentences !!! quarter_idx ∉ summary_sentences)
      then let summary_sentences :=
             insert_at_1 (sentences !!! quarter_idx) summary_sentences in
           (summary_sentences, join " " summary_sentences)
      else (summary_sentences, summary)
    else (summary_sentences, summary) in
  if decide (max_length < Z.of_nat (word_count summary))%Z
  then sentences !!! 0 +:+ " " +:+ py_last sentences
  else summary.

(** [set(s.lower().split())]. *)
Definition word_set (s : string) : gset string :=
  list_to_set (str_words (str_lower s)).

End summarizer_text.

(** The dict returned by [answer_question]. *)
Module Answer.
Record t := {
  answer : string;
  context : string;
  source : string;
  topic : string;
}.
End Answer.

Section summarizer_answer.
Context `{Numpy} `{PyStr}.

Definition no_information : Answer.t :=
  {| Answer.answer := "I don't have enough information to answer this question.";
     Answer.context := "";
     Answer.source := "";
     Answer.topic := "" |}.

(** [answer_question], lines 126-174. *)
Definition answer_question (question : string) : M Answer.t :=
  search_results ← VectorDB.search question 3;
  h ← gets heap;
  match search_results with
  | [] => mret no_information
  | first :: _ =>
      let contexts := (λ result, content (deref h result)) <$> search_results in
      let full_context := join " " contexts in
      let full_context :=
        if decide (500 < word_count full_context)
        then content (deref h first)
        else full_context in
      let sentences := sentences_of full_context in
      let relevant_sentences :=
        filter (λ sentence,
                  1 < size (word_set question ∩ word_set sentence))
               sentences in
      mret {| Answer.answer :=
                match relevant_sentences with
                | sentence :: _ => sentence
                | [] => match sentences with
                        | sentence :: _ => sentence
                        | [] => "No answer found."
                        end
                end;
              Answer.context := full_context;
              Answer.source := source (deref h first);
              Answer.topic := topic (deref h first) |}
  end.

End summarizer_answer.

Section summarizer_answer_of.
Context `{PyStr}.

(** [answer_question] as a function of what [search] returned. *)
Definition answer_of (question : string) (h : list item) (ls : list loc)
  : Answer.t :=
  match ls with
  | [] => no_information
  | first :: _ =>
      let full_context := join " " ((λ l, content (deref h l)) <$> ls) in
      let full_context :=
        if decide (500 < word_count full_context)
        then content (deref h first) else full_context in
      let sentences := sentences_of full_context in
      let relevant_sentences :=
        filter (λ sentence,
                  1 < size (word_set question ∩ word_set sentence))
               sentences in
      {| Answer.answer :=
           match relevant_sentences with
           | sentence :: _ => sentence
           | [] => match sentences with
                   | sentence :: _ => sentence
                   | [] => "No answer found."
                   end
           end;
         Answer.context := full_context;
         Answer.source := source (deref h first);
         Answer.topic := topic (deref h first) |}
  end.

End summarizer_answer_of.

(** ** [utils/visualization.py]: the items per topic

    [create_knowledge_network] counts the records of each topic (lines
    116-121) to size the nodes of the chart:
    [topic_counts[topic] = topic_counts.get(topic, 0) + 1] for every item
    of [db.metadata]. *)
Definition count_topic (counts : gmap string nat) (r : item)
  : gmap string nat :=
  <[topic r := default 0 (counts !! topic r) + 1]> counts.

Definition topic_counts `{Numpy} (st : state) : gmap string nat :=
  foldl count_topic ∅ (records st).


(** ** A concrete instance of the string interface

    For texts in ASCII whose only white space is the space character. *)
Module SampleStr.

Definition ascii_lower (c : Ascii.ascii) : Ascii.ascii :=
  let n := Ascii.nat_of_ascii c in
  if (65 <=? n) && (n <=? 90) then Ascii.ascii_of_nat (n + 32) else c.

Fixpoint lower (s : string) : string :=
  match s with
  | EmptyString => EmptyString
  | String c s' => String (ascii_lower c) (lower s')
  end.

Definition words (s : string) : list string :=
  filter (λ w, w ≠ EmptyString) (split " " s).

#[global] Instance pystr : PyStr := {|
  str_words := words;
  str_lower := lower;
|}.

(** A text of four sentences of twenty-five words each. *)
Definition sentence (w : string) : string :=
  join " " (replicate 25 w).

Definition long_text : string :=
  join ". " [sentence "one"; sentence "two"; sentence "three";
             sentence "four"] +:+ ".".

End SampleStr.

(** * Properties *)

(** ** Numbers *)

Lemma py_max_ge_first x xs : (x <= py_max x xs)%Q.
Proof.
  revert x. induction xs as [|y xs IH]; intros x; simpl.
  - apply Qle_refl.
  - destruct (Qlt_le_dec x y) as [Hlt|Hle].
    + eapply Qle_trans; [apply Qlt_le_weak, Hlt | apply IH].
    + apply IH.
Qed.

Lemma py_max_upper x xs y : y ∈ x :: xs → (y <= py_max x xs)%Q.
Proof.
  revert x. induction xs as [|z xs IH]; intros x Hin.
  - apply list_elem_of_singleton in Hin as ->. apply Qle_refl.
  - simpl. apply elem_of_cons in Hin as [->|Hin].
    + destruct (Qlt_le_dec x z) as [Hlt|Hle].
      * eapply Qle_trans; [apply Qlt_le_weak, Hlt | apply py_max_ge_first].
      * apply py_max_ge_first.
    + apply elem_of_cons in Hin as [->|Hin].
      * destruct (Qlt_le_dec x z) as [Hlt|Hle].
        -- apply py_max_ge_first.
        -- eapply Qle_trans; [exact Hle | apply py_max_ge_first].
      * apply IH. by right.
Qed.

Lemma py_max_elem x xs : py_max x xs ∈ x :: xs.
Proof.
  revert x. induction xs as [|z xs IH]; intros x; simpl.
  - by left.
  - destruct (Qlt_le_dec x z).
    + right. apply IH.
    + specialize (IH x). apply elem_of_cons in IH as [Heq|IH].
      * rewrite Heq. by left.
      * by do 2 right.
Qed.

(** ** The index *)

Lemma sqdiff_nonneg a b : (0 <= faiss.sqdiff a b)%Q.
Proof.
  unfold faiss.sqdiff.
  destruct (Qlt_le_dec (a - b) 0) as [Hneg|Hpos]; nra.
Qed.

Lemma L2sqr_sum_nonneg x y :
  (0 <= foldr Qplus 0 (zip_with faiss.sqdiff x y))%Q.
Proof.
  revert y.
  induction x as [|a x IH]; intros [|b y]; simpl; try apply Qle_refl.
  pose proof (sqdiff_nonneg a b). specialize (IH y). lra.
Qed.

Lemma fvec_L2sqr_nonneg x y s :
  faiss.fvec_L2sqr x y = faiss.finite s → (0 <= s)%Q.
Proof.
  unfold faiss.fvec_L2sqr. destruct (Qlt_le_dec _ _); [done|].
  intros [= <-]. apply L2sqr_sum_nonneg.
Qed.

Lemma below_max_Some a s :
  faiss.below_max a = Some s ↔ a = faiss.finite s ∧ (s < faiss.FLT_MAX)%Q.
Proof.
  destruct a as [q|]; simpl; [|split; [done|by intros [? _]]].
  destruct (Qlt_le_dec q faiss.FLT_MAX) as [Hlt|Hle]; split.
  - by intros [= <-].
  - by intros [[= <-] _].
  - done.
  - intros [[= <-] Hlt]. by apply Qlt_not_le in Hlt.
Qed.

Lemma admitted_Some p q :
  faiss.admitted p = Some q ↔
  p.1 = faiss.finite q.1 ∧ (q.1 < faiss.FLT_MAX)%Q ∧ q.2 = p.2.
Proof.
  unfold faiss.admitted. destruct q as [s l]. simpl. split.
  - destruct (faiss.below_max p.1) as [s'|] eqn:Hb; [|done].
    intros [= <- <-]. apply below_max_Some in Hb as [? ?]. done.
  - intros (Hp & Hlt & <-).
    assert (Hb : faiss.below_max p.1 = Some s) by by apply below_max_Some.
    by rewrite Hb.
Qed.

#[global] Instance by_distance_trans : Transitive faiss.by_distance.
Proof. intros a b c. unfold faiss.by_distance. apply Qle_trans. Qed.

#[global] Instance by_distance_total : Total faiss.by_distance.
Proof.
  intros a b. unfold faiss.by_distance.
  destruct (Qlt_le_dec a.1 b.1) as [Hlt|Hle]; [left; by apply Qlt_le_weak | by right].
Qed.

Lemma scan_lookup ix x i p :
  faiss.scan ix x !! i = Some p ↔
  ∃ y, faiss.xb ix !! i = Some y ∧ p = (faiss.fvec_L2sqr x y, Z.of_nat i).
Proof.
  unfold faiss.scan. rewrite list_lookup_imap.
  destruct (faiss.xb ix !! i) as [y|]; simpl; split.
  - intros [= <-]. eauto.
  - intros (y' & [= <-] & ->). done.
  - done.
  - intros (? & ? & _). done.
Qed.

Lemma length_scan ix x : length (faiss.scan ix x) = faiss.ntotal ix.
Proof. unfold faiss.scan. by rewrite length_imap. Qed.

(** The candidates: the stored vectors at a distance below [FLT_MAX]. *)
Lemma candidates_elem ix x q :
  q ∈ omap faiss.admitted (faiss.scan ix x) ↔
  ∃ i y, faiss.xb ix !! i = Some y ∧
         faiss.fvec_L2sqr x y = faiss.finite q.1 ∧
         (q.1 < faiss.FLT_MAX)%Q ∧ q.2 = Z.of_nat i.
Proof.
  rewrite list_elem_of_omap. split.
  - intros (p & [i Hi]%list_elem_of_lookup & Hq).
    apply scan_lookup in Hi as (y & Hy & ->).
    apply admitted_Some in Hq as (? & ? & ?). eauto 10.
  - intros (i & y & Hy & Hd & Hlt & Hl).
    exists (faiss.fvec_L2sqr x y, Z.of_nat i). split.
    + apply list_elem_of_lookup. exists i. apply scan_lookup. eauto.
    + by apply admitted_Some.
Qed.

Lemma length_omap_le {A B} (f : A → option B) (l : list A) :
  length (omap f l) ≤ length l.
Proof.
  induction l as [|a l IH]; [done|].
  cbn [omap list_omap]. destruct (f a); cbn [length]; lia.
Qed.

Lemma length_candidates ix x :
  length (omap faiss.admitted (faiss.scan ix x)) ≤ faiss.ntotal ix.
Proof. rewrite <- (length_scan ix x). apply length_omap_le. Qed.

(** When no distance reaches [FLT_MAX], every stored vector is a
    candidate. *)
Lemma length_candidates_all ix x :
  Forall (λ v, is_Some (faiss.below_max (faiss.fvec_L2sqr x v))) (faiss.xb ix) →
  length (omap faiss.admitted (faiss.scan ix x)) = faiss.ntotal ix.
Proof.
  unfold faiss.scan, faiss.ntotal.
  assert (Hgen : ∀ (g : nat → faiss.vec → faiss.float32 * Z) vs,
            (∀ i v, (g i v).1 = faiss.fvec_L2sqr x v) →
            Forall (λ v, is_Some (faiss.below_max (faiss.fvec_L2sqr x v))) vs →
            length (omap faiss.admitted (imap g vs)) = length vs).
  { intros g vs. revert g.
    induction vs as [|v vs IH]; intros g Hg Hall; [done|].
    apply Forall_cons in Hall as [[s Hs] Hall].
    cbn [imap omap list_omap]. unfold faiss.admitted at 1.
    rewrite Hg, Hs. cbn [fmap option_fmap option_map length]. f_equal.
    apply IH; [|done]. intros i v'. apply Hg. }
  intros Hall. by apply Hgen.
Qed.

Lemma length_knn_le ix x k :
  length (faiss.knn ix x k) ≤ k `min` faiss.ntotal ix.
Proof.
  unfold faiss.knn. rewrite length_take.
  rewrite (Permutation_length (merge_sort_Permutation _ _)).
  pose proof (length_candidates ix x). lia.
Qed.

Lemma length_knn ix x k :
  Forall (λ v, is_Some (faiss.below_max (faiss.fvec_L2sqr x v))) (faiss.xb ix) →
  length (faiss.knn ix x k) = k `min` faiss.ntotal ix.
Proof.
  intros Hall. unfold faiss.knn. rewrite length_take.
  by rewrite (Permutation_length (merge_sort_Permutation _ _)),
    length_candidates_all.
Qed.

(** Every neighbour is a stored vector, paired with its distance to the
    query, which is below [FLT_MAX]. *)
Lemma knn_elem ix x k p :
  p ∈ faiss.knn ix x k →
  ∃ i y, faiss.xb ix !! i = Some y ∧
         faiss.fvec_L2sqr x y = faiss.finite p.1 ∧
         (p.1 < faiss.FLT_MAX)%Q ∧ p.2 = Z.of_nat i.
Proof.
  unfold faiss.knn. intros Hp. apply subseteq_take in Hp.
  rewrite merge_sort_Permutation in Hp.
  by apply candidates_elem.
Qed.

Lemma knn_sorted ix x k : StronglySorted faiss.by_distance (faiss.knn ix x k).
Proof.
  unfold faiss.knn.
  eapply StronglySorted_app_1_l. rewrite take_drop.
  apply StronglySorted_merge_sort; apply _.
Qed.


Example faiss_search_demo :
  faiss.search {| faiss.d := 1; faiss.xb := [[3%Q]; [1%Q]] |} [0%Q] 3
  = Some ([1%Q; 9%Q; faiss.FLT_MAX], [1%Z; 0%Z; (-1)%Z]).
Proof. vm_compute. reflexivity. Qed.

(** A vector whose distance overflows is not returned: its place is taken
    by a padding entry. *)
Example faiss_search_overflow :
  faiss.search
    {| faiss.d := 1;
       faiss.xb := [[0%Q]; [100000000000000000000%Q]] |} [1%Q] 2
  = Some ([1%Q; faiss.FLT_MAX], [0%Z; (-1)%Z]).
Proof. vm_compute. reflexivity. Qed.


(** ** Running computations *)

Ltac unfold_monad :=
  unfold mbind, M_bind, bind, mret, M_ret, ret, gets, modify, raise in *.

Section embedding_facts.
Context `{Numpy}.

Lemma length_randn n g : length (randn n g).1 = n.
Proof.
  revert g. induction n as [|n IH]; intros g; simpl; [done|].
  destruct (np_random_draw g) as [x g1].
  specialize (IH g1). destruct (randn n g1) as [xs g2]. simpl in *. lia.
Qed.

Lemma length_embedding_of text : length (embedding_of text) = 64.
Proof. apply length_randn. Qed.


Lemma generate_embeddings_run text st :
  generate_embeddings text st
  = (Ok (embedding_of text), set_np_random (generator_after text) st).
Proof.
  unfold generate_embeddings, seed_global, randn_global, embedding_of,
    generator_after.
  unfold_monad. cbn [np_random set_np_random].
  destruct (randn 64 (np_random_seed (hash_val text))) as [xs g].
  reflexivity.
Qed.

End embedding_facts.

(** ** The heap *)

Section heap_facts.
Context `{Numpy}.

Lemma deref_app_l (h h' : list item) l :
  l < length h → deref (h ++ h') l = deref h l.
Proof. intros Hl. unfold deref. by rewrite lookup_total_app_l. Qed.

Lemma deref_fresh (h : list item) r h' : deref (h ++ r :: h') (length h) = r.
Proof.
  unfold deref. rewrite lookup_total_app_r by lia.
  by replace (length h - length h) with 0 by lia.
Qed.

Lemma fmap_deref_app (h h' : list item) (ls : list loc) :
  Forall (λ l, l < length h) ls → deref (h ++ h') <$> ls = deref h <$> ls.
Proof.
  intros Hls. apply Forall_fmap_ext_1.
  eapply Forall_impl; [exact Hls|]. intros l Hl. by apply deref_app_l.
Qed.

Lemma fmap_deref_seq (h rs : list item) :
  deref (h ++ rs) <$> seq (length h) (length rs) = rs.
Proof.
  revert h. induction rs as [|r rs IH]; intros h; [done|].
  simpl. rewrite deref_fresh. f_equal.
  specialize (IH (h ++ [r])). rewrite length_app in IH. simpl in IH.
  replace (length h + 1) with (S (length h)) in IH by lia.
  by rewrite <- app_assoc in IH.
Qed.

Lemma insert_fresh (h : list item) r r' :
  <[length h := r']> (h ++ [r]) = h ++ [r'].
Proof.
  rewrite insert_app_r_alt by lia.
  by replace (length h - length h) with 0 by lia.
Qed.

(** A computation that returns [v] leaves the state [after] it. *)
Lemma run_after {A} (m : M A) st v :
  (m st).1 = Ok v → m st = (Ok v, after m st).
Proof. unfold after. destruct (m st) as [o st']. simpl. by intros ->. Qed.

Lemma length_records st : length (records st) = length (metadata st).
Proof. unfold records. by rewrite length_fmap. Qed.

Lemma json_load_run rs st :
  VectorDB.json_load rs st
  = (Ok (seq (length (heap st)) (length rs)), set_heap (heap st ++ rs) st).
Proof.
  revert st. induction rs as [|r rs IH]; intros st.
  - simpl. unfold_monad. rewrite app_nil_r. by destruct st.
  - simpl. unfold_monad. unfold alloc. rewrite IH. simpl.
    rewrite length_app. simpl.
    replace (length (heap st) + 1) with (S (length (heap st))) by lia.
    by rewrite <- app_assoc.
Qed.

Lemma save_run st :
  VectorDB.save st
  = (Ok tt, set_files {| index_file := Some (index st);
                         metadata_file := Some (records st) |} st).
Proof. reflexivity. Qed.

(** [__init__] when both files exist. *)
Lemma init_load_run st ix rs :
  index_file (files st) = Some ix →
  metadata_file (files st) = Some rs →
  VectorDB.__init__ st
  = (Ok tt, {| heap := heap st ++ rs; np_random := np_random st;
               files := files st; index := ix;
               metadata := seq (length (heap st)) (length rs) |}).
Proof.
  intros Hix Hrs. unfold VectorDB.__init__. unfold_monad.
  rewrite Hix, Hrs. simpl. rewrite json_load_run. reflexivity.
Qed.

(** [__init__] when a file is missing. *)
Lemma init_create_run st :
  index_file (files st) = None ∨ metadata_file (files st) = None →
  VectorDB.__init__ st
  = (Ok tt, set_metadata [] (set_index (faiss.new 64) st)).
Proof.
  intros Hnone. unfold VectorDB.__init__. unfold_monad.
  destruct (index_file (files st)), (metadata_file (files st));
    try reflexivity.
  by destruct Hnone.
Qed.

End heap_facts.

(** ** [search] *)

Section search_facts.
Context `{Numpy}.

Lemma loop_hits_zip n pre ds indices :
  length ds = length indices →
  loop_hits n (pre ++ ds) (length pre) indices
  = filter (λ p, VectorDB.valid_label n p.2) (zip ds indices).
Proof.
  revert pre ds. induction indices as [|idx rest IH]; intros pre ds Hlen.
  - by destruct ds.
  - destruct ds as [|d ds]; [done|]. simpl in Hlen.
    simpl. rewrite filter_cons. simpl.
    specialize (IH (pre ++ [d]) ds). rewrite <- app_assoc, length_app in IH.
    simpl in IH. replace (length pre + 1) with (S (length pre)) in IH by lia.
    rewrite IH by lia.
    rewrite lookup_total_app_r by lia.
    replace (length pre - length pre) with 0 by lia. simpl.
    by destruct (VectorDB.valid_label n idx).
Qed.


Lemma records_lookup_total st n :
  n < length (metadata st) →
  records st !!! n = deref (heap st) (metadata st !!! n).
Proof.
  intros Hn. unfold records.
  exact (list_lookup_total_fmap (deref (heap st)) (metadata st) n Hn).
Qed.


Lemma search_loop_run distances indices : ∀ i results st,
  Forall (λ l, l < length (heap st)) (metadata st) →
  let hs := loop_hits (length (metadata st)) distances i indices in
  VectorDB.search_loop distances i indices results st
  = (Ok (results ++ seq (length (heap st)) (length hs)),
     set_heap (heap st ++ (scored st (VectorDB.max_distance distances) <$> hs)) st).
Proof.
  induction indices as [|idx rest IH]; intros i results st Hwf.
  - simpl. unfold_monad. rewrite !app_nil_r. by destruct st.
  - simpl. unfold_monad. simpl.
    destruct (VectorDB.valid_label (length (metadata st)) idx) eqn:Hv;
      [|apply IH; exact Hwf].
    unfold dict_copy, alloc, dict_update. unfold_monad. simpl.
    rewrite deref_fresh, insert_fresh.
    set (r := with_score _ _).
    change (set_heap (heap st ++ [r]) (set_heap _ st))
      with (set_heap (heap st ++ [r]) st).
    set (st2 := set_heap (heap st ++ [r]) st).
    assert (Hwf2 : Forall (λ l, l < length (heap st2)) (metadata st2)).
    { simpl. rewrite length_app. eapply Forall_impl; [exact Hwf|].
      simpl. intros; lia. }
    assert (Hrec : records st2 = records st).
    { unfold records. simpl. by apply fmap_deref_app. }
    assert (Hidx : (0 ≤ idx)%Z ∧ Z.to_nat idx < length (metadata st)).
    { unfold VectorDB.valid_label in Hv.
      apply andb_true_iff in Hv as [H1 H2].
      apply bool_decide_eq_true in H1. apply bool_decide_eq_true in H2. lia. }
    rewrite (IH (S i) (results ++ [length (heap st)]) st2 Hwf2).
    assert (Hr : scored st (VectorDB.max_distance distances) (distances !!! i, idx) = r).
    { unfold r, scored. simpl. by rewrite records_lookup_total by lia. }
    rewrite Hr.
    assert (Hsc : scored st2 (VectorDB.max_distance distances)
                  = scored st (VectorDB.max_distance distances)).
    { unfold scored. by rewrite Hrec. }
    rewrite Hsc. unfold st2. simpl. rewrite length_app. simpl.
    replace (length (heap st) + 1) with (S (length (heap st))) by lia.
    rewrite <- !app_assoc. reflexivity.
Qed.

Lemma neighbours_search st query top_k distances indices :
  faiss.search (index st) (embedding_of query)
    (Z.min top_k (Z.of_nat (length (metadata st)))) = Some (distances, indices) →
  neighbours st query top_k = zip distances indices ∧
  (neighbours st query top_k).*1 = distances ∧
  length distances = length indices.
Proof.
  intros Hs. unfold neighbours, requested. rewrite Hs.
  unfold faiss.search in Hs. repeat case_decide; try done.
  injection Hs as <- <-. rewrite zip_fst_snd.
  split_and!; [done|done|by rewrite !length_fmap].
Qed.

(** [search] on a store without records. *)
Lemma search_empty_run st query top_k :
  metadata st = [] → VectorDB.search query top_k st = (Ok [], st).
Proof.
  intros Hmd. unfold VectorDB.search. unfold_monad. rewrite Hmd. done.
Qed.

(** [search] on a store with records, when the index accepts the query. *)
Lemma search_run st query top_k :
  well_formed st → (0 < top_k)%Z → metadata st ≠ [] →
  VectorDB.search query top_k st
  = (Ok (seq (length (heap st)) (length (hits st query top_k))),
     set_heap (heap st ++ (scored st (normaliser st query top_k)
                             <$> hits st query top_k))
       (set_np_random (generator_after query) st)).
Proof.
  intros [Hd Hwf] Hk Hmd. unfold allocated in Hwf. unfold VectorDB.search. unfold_monad.
  case_decide as Hlen; [by destruct (metadata st)|].
  rewrite generate_embeddings_run. simpl.
  destruct (faiss.search (index st) (embedding_of query)
              (top_k `min` Z.of_nat (length (metadata st)))) as [[ds lbls]|] eqn:Hs.
  - apply neighbours_search in Hs as (Hn & Hn1 & Hlen').
    rewrite search_loop_run by done. simpl.
    pose proof (loop_hits_zip (length (metadata st)) [] ds lbls Hlen') as Hz.
    simpl in Hz. rewrite Hz.
    unfold hits, normaliser. rewrite Hn1, Hn. done.
  - exfalso. unfold faiss.search in Hs.
    rewrite length_embedding_of, Hd in Hs.
    case_decide; [|done]. case_decide; [done|]. lia.
Qed.

End search_facts.

(** ** [delete_by_topic] *)

Section delete_facts.
Context `{Numpy}.

Lemma renumber_cons i r rs :
  renumber i (r :: rs) = with_id (Z.of_nat i) r :: renumber (S i) rs.
Proof.
  unfold renumber. rewrite imap_cons. f_equal.
  - by replace (i + 0) with i by lia.
  - apply imap_ext. intros j x _. simpl. by replace (i + S j) with (S (i + j)) by lia.
Qed.

Lemma length_renumber i rs : length (renumber i rs) = length rs.
Proof. apply length_imap. Qed.

Lemma fmap_deref_renumber h rs :
  deref (h ++ renumber 0 rs) <$> seq (length h) (length rs) = renumber 0 rs.
Proof.
  rewrite <- (length_renumber 0 rs). apply fmap_deref_seq.
Qed.

Lemma rebuild_loop_run keep : ∀ i new_index new_metadata st,
  faiss.d new_index = 64 →
  Forall (λ l, l < length (heap st)) keep →
  let rs := deref (heap st) <$> keep in
  VectorDB.rebuild_loop i keep new_index new_metadata st
  = (Ok ({| faiss.d := 64;
            faiss.xb := faiss.xb new_index ++ (embedding_of ∘ content <$> rs) |},
         new_metadata ++ seq (length (heap st)) (length keep)),
     set_heap (heap st ++ renumber i rs)
       (set_np_random (generator_after_all (np_random st) (content <$> rs)) st)).
Proof.
  induction keep as [|l keep IH]; intros i new_index new_metadata st Hd Hwf.
  - simpl. unfold_monad. rewrite !app_nil_r.
    destruct new_index, st; simpl in *. by subst.
  - apply Forall_cons in Hwf as [Hl Hwf].
    simpl. unfold_monad. rewrite generate_embeddings_run.
    unfold faiss.add. rewrite length_embedding_of, Hd.
    case_decide; [|done].
    unfold dict_copy, alloc, dict_update. unfold_monad. simpl.
    rewrite deref_fresh, insert_fresh.
    set (r := with_id _ _).
    change (set_heap (heap st ++ [r]) (set_heap _ ?s))
      with (set_heap (heap st ++ [r]) s).
    set (st2 := set_heap (heap st ++ [r]) _).
    assert (Hwf2 : Forall (λ l, l < length (heap st2)) keep).
    { simpl. rewrite length_app. eapply Forall_impl; [exact Hwf|].
      simpl. intros; lia. }
    rewrite IH; [|reflexivity|exact Hwf2].
    assert (Hrs : deref (heap st2) <$> keep = deref (heap st) <$> keep).
    { simpl. by apply fmap_deref_app. }
    rewrite Hrs, renumber_cons. fold r.
    unfold st2. simpl. rewrite length_app. simpl.
    replace (length (heap st) + 1) with (S (length (heap st))) by lia.
    rewrite <- !app_assoc. reflexivity.
Qed.

Lemma filter_deref h t (ls : list loc) :
  deref h <$> filter (λ l, topic (deref h l) ≠ t) ls
  = survivors t (deref h <$> ls).
Proof.
  unfold survivors. induction ls as [|l ls IH]; [done|].
  rewrite fmap_cons, !filter_cons.
  case_decide; [rewrite fmap_cons|]; by rewrite IH.
Qed.

Lemma length_filter_all {A} (P : A → Prop) `{!∀ x, Decision (P x)} (l : list A) :
  length (filter P l) = length l ↔ Forall P l.
Proof.
  induction l as [|x l IH]; [by split|].
  rewrite filter_cons. pose proof (length_filter P l).
  case_decide; simpl; rewrite Forall_cons.
  - split; [intros ?; split; [done|apply IH; lia] | intros [_ ?%IH]; lia].
  - split; [lia | tauto].
Qed.

Lemma Forall_records (P : item → Prop) st :
  Forall P (records st) ↔ Forall (λ l, P (deref (heap st) l)) (metadata st).
Proof. unfold records. exact (Forall_fmap (deref (heap st)) P (metadata st)). Qed.

(** [delete_by_topic] when no record has the topic. *)
Lemma delete_absent_run st t :
  Forall (λ r, topic r ≠ t) (records st) →
  VectorDB.delete_by_topic t st = (Ok false, st).
Proof.
  intros Hall. unfold VectorDB.delete_by_topic. unfold_monad.
  case_decide as Hlen; [done|]. exfalso. apply Hlen.
  apply length_filter_all. by apply Forall_records in Hall.
Qed.

(** [delete_by_topic] when some record has the topic. *)
Lemma delete_present_run st t :
  Forall (λ l, l < length (heap st)) (metadata st) →
  ¬ Forall (λ r, topic r ≠ t) (records st) →
  let rs := survivors t (records st) in
  let ix := {| faiss.d := 64; faiss.xb := embedding_of ∘ content <$> rs |} in
  VectorDB.delete_by_topic t st
  = (Ok true,
     {| heap := heap st ++ renumber 0 rs;
        np_random := generator_after_all (np_random st) (content <$> rs);
        files := {| index_file := Some ix;
                    metadata_file := Some (renumber 0 rs) |};
        index := ix;
        metadata := seq (length (heap st)) (length rs) |}).
Proof.
  intros Hwf Hsome. unfold VectorDB.delete_by_topic. unfold_monad.
  case_decide as Hlen.
  { exfalso. apply Hsome. apply length_filter_all in Hlen.
    by apply Forall_records. }
  set (keep := filter _ (metadata st)).
  assert (Hkeep : Forall (λ l, l < length (heap st)) keep).
  { apply Forall_forall. intros l Hl. apply list_elem_of_filter in Hl as [_ Hl].
    by eapply Forall_forall in Hwf. }
  rewrite rebuild_loop_run by done. simpl.
  assert (Hrs : deref (heap st) <$> keep = survivors t (records st)).
  { unfold keep, records. apply filter_deref. }
  assert (Hlk : length keep = length (survivors t (records st))).
  { by rewrite <- Hrs, length_fmap. }
  rewrite Hrs, Hlk, fmap_deref_renumber. reflexivity.
Qed.

End delete_facts.

(** ** [add] *)

Section add_facts.
Context `{Numpy}.

Lemma add_run st tp ct src embeddings now :
  let e := default (embedding_of ct) embeddings in
  length e = faiss.d (index st) →
  let r := {| id := Z.of_nat (length (metadata st)); topic := tp;
              content := ct; source := src; date := now; score := None |} in
  let ix := {| faiss.d := faiss.d (index st);
               faiss.xb := faiss.xb (index st) ++ [e] |} in
  let md := metadata st ++ [length (heap st)] in
  VectorDB.add tp ct src embeddings now st
  = (Ok (Z.of_nat (length (metadata st))),
     {| heap := heap st ++ [r];
        np_random := match embeddings with
                     | Some _ => np_random st
                     | None => generator_after ct
                     end;
        files := {| index_file := Some ix;
                    metadata_file := Some (deref (heap st ++ [r]) <$> md) |};
        index := ix;
        metadata := md |}).
Proof.
  intros e He r ix md. unfold VectorDB.add, VectorDB.index_add.
  destruct embeddings as [v|]; unfold_monad.
  - simpl in *. unfold faiss.add. case_decide; [|done]. reflexivity.
  - rewrite generate_embeddings_run. simpl in *.
    unfold faiss.add. case_decide; [|done]. reflexivity.
Qed.

(** [add] with a vector of the wrong dimension: the index refuses it and
    nothing is stored. *)
Lemma add_raise_run st tp ct src v now :
  length v ≠ faiss.d (index st) →
  VectorDB.add tp ct src (Some v) now st = (Raise AssertionError, st).
Proof.
  intros Hv. unfold VectorDB.add, VectorDB.index_add. unfold_monad.
  unfold faiss.add. by case_decide.
Qed.

Lemma add_Ok_inv st tp ct src embeddings now idx st' :
  VectorDB.add tp ct src embeddings now st = (Ok idx, st') →
  length (default (embedding_of ct) embeddings) = faiss.d (index st).
Proof.
  intros Hadd.
  destruct (decide (length (default (embedding_of ct) embeddings)
                    = faiss.d (index st))) as [|Hne]; [done|].
  exfalso. destruct embeddings as [v|]; simpl in Hne.
  - by rewrite add_raise_run in Hadd.
  - unfold VectorDB.add, VectorDB.index_add in Hadd. unfold_monad.
    rewrite generate_embeddings_run in Hadd. simpl in Hadd.
    unfold faiss.add in Hadd. by case_decide.
Qed.

Lemma records_snoc st r :
  Forall (λ l, l < length (heap st)) (metadata st) →
  deref (heap st ++ [r]) <$> (metadata st ++ [length (heap st)])
  = records st ++ [r].
Proof.
  intros Hwf. rewrite fmap_app. simpl. rewrite deref_fresh.
  by rewrite fmap_deref_app.
Qed.

End add_facts.

(** ** The consistency contract *)

Section positional_facts.

Lemma positional_lookup rs :
  positional rs ↔ ∀ i r, rs !! i = Some r → id r = Z.of_nat i.
Proof.
  unfold positional. split.
  - intros Heq i r Hi.
    assert (Hl : (id <$> rs) !! i = Some (id r)) by by rewrite list_lookup_fmap, Hi.
    rewrite Heq, list_lookup_fmap in Hl.
    apply lookup_lt_Some in Hi.
    rewrite lookup_seq_lt in Hl by done. simpl in Hl. by injection Hl as ->.
  - intros Hall. apply list_eq. intros i.
    rewrite !list_lookup_fmap.
    destruct (rs !! i) as [r|] eqn:Hi; simpl.
    + rewrite lookup_seq_lt by by eapply lookup_lt_Some.
      simpl. f_equal. by apply Hall.
    + rewrite lookup_seq_ge; [done|]. by apply lookup_ge_None.
Qed.


Lemma positional_snoc rs r :
  positional rs → id r = Z.of_nat (length rs) → positional (rs ++ [r]).
Proof.
  unfold positional. intros Hrs Hr.
  rewrite fmap_app, length_app, Hrs. simpl.
  replace (length rs + 1) with (S (length rs)) by lia.
  rewrite seq_S, fmap_app. simpl. by rewrite Hr.
Qed.

Lemma positional_renumber rs : positional (renumber 0 rs).
Proof.
  apply positional_lookup. intros i r Hi. unfold renumber in Hi.
  rewrite list_lookup_imap in Hi.
  destruct (rs !! i); simpl in Hi; [|done]. by injection Hi as <-.
Qed.

End positional_facts.

(** ** The neighbours of a query *)

Section neighbour_facts.
Context `{Numpy}.

Lemma filter_id {A} (P : A → Prop) `{!∀ x, Decision (P x)} (l : list A) :
  Forall P l → filter P l = l.
Proof.
  induction 1 as [|x l Hx _ IH]; [done|].
  rewrite filter_cons. case_decide; [by rewrite IH|done].
Qed.

Lemma filter_none {A} (P : A → Prop) `{!∀ x, Decision (P x)} (l : list A) :
  Forall (λ x, ¬ P x) l → filter P l = [].
Proof.
  induction 1 as [|x l Hx _ IH]; [done|].
  rewrite filter_cons. by case_decide.
Qed.

Lemma StronglySorted_filter {A} (R : relation A) (P : A → Prop)
    `{!∀ x, Decision (P x)} (l : list A) :
  StronglySorted R l → StronglySorted R (filter P l).
Proof.
  induction 1 as [|x l _ IH Hx]; [constructor|].
  rewrite filter_cons. case_decide; [|done].
  constructor; [done|].
  apply Forall_forall. intros y [_ Hy]%list_elem_of_filter.
  by eapply Forall_forall in Hx.
Qed.

Lemma StronglySorted_weaken {A} (R R' : relation A) (l : list A) :
  (∀ x y, R x y → R' x y) → StronglySorted R l → StronglySorted R' l.
Proof.
  intros Himpl. induction 1 as [|x l _ IH Hx]; constructor; [done|].
  eapply Forall_impl; [exact Hx|]. apply Himpl.
Qed.

Lemma neighbours_knn st query top_k :
  faiss.d (index st) = 64 → (0 < requested st top_k)%Z →
  let k := Z.to_nat (requested st top_k) in
  let nn := faiss.knn (index st) (embedding_of query) k in
  neighbours st query top_k
  = nn ++ replicate (k - length nn) (faiss.FLT_MAX, (-1)%Z).
Proof.
  intros Hd Hk. unfold neighbours, faiss.search. fold (requested st top_k).
  rewrite length_embedding_of, Hd.
  case_decide; [|done]. case_decide; [|done].
  by rewrite zip_fst_snd.
Qed.

Lemma neighbours_none st query top_k :
  (requested st top_k ≤ 0)%Z → neighbours st query top_k = [].
Proof.
  intros Hk. unfold neighbours, faiss.search. fold (requested st top_k).
  case_decide; [|done]. case_decide; [lia|done].
Qed.

Lemma hits_knn st query top_k :
  faiss.d (index st) = 64 →
  hits st query top_k
  = filter (λ p, VectorDB.valid_label (length (metadata st)) p.2)
      (faiss.knn (index st) (embedding_of query)
         (Z.to_nat (requested st top_k))).
Proof.
  intros Hd. unfold hits.
  destruct (decide (0 < requested st top_k)%Z) as [Hk|Hk].
  - rewrite neighbours_knn by done. rewrite filter_app.
    rewrite (filter_none _ (replicate _ _)); [by rewrite app_nil_r|].
    apply Forall_replicate. unfold VectorDB.valid_label. simpl.
    tauto.
  - rewrite neighbours_none by lia.
    replace (Z.to_nat (requested st top_k)) with 0 by lia.
    done.
Qed.

Lemma hits_sorted st query top_k :
  faiss.d (index st) = 64 →
  StronglySorted faiss.by_distance (hits st query top_k).
Proof.
  intros Hd. rewrite hits_knn by done.
  apply StronglySorted_filter, knn_sorted.
Qed.

(** Every hit names a stored vector and a stored record, and carries the
    squared L2 distance from the query to that vector, which is below
    [FLT_MAX]. *)
Lemma hits_elem st query top_k p :
  faiss.d (index st) = 64 →
  p ∈ hits st query top_k →
  ∃ i v, p.2 = Z.of_nat i ∧ i < length (metadata st) ∧
         faiss.xb (index st) !! i = Some v ∧
         faiss.fvec_L2sqr (embedding_of query) v = faiss.finite p.1 ∧
         (p.1 < faiss.FLT_MAX)%Q.
Proof.
  intros Hd. rewrite hits_knn by done.
  intros [Hv Hp]%list_elem_of_filter.
  apply knn_elem in Hp as (i & v & Hi & Hdist & Hlt & Hl). exists i, v.
  unfold VectorDB.valid_label in Hv. rewrite Hl in Hv.
  apply andb_prop_elim in Hv as [_ Hv%bool_decide_unpack].
  split_and!; [done|lia|done|done|done].
Qed.

Lemma length_hits_le st query top_k :
  faiss.d (index st) = 64 →
  length (hits st query top_k) ≤ Z.to_nat (requested st top_k).
Proof.
  intros Hd. rewrite hits_knn by done.
  etrans; [apply length_filter|].
  pose proof (length_knn_le (index st) (embedding_of query)
                (Z.to_nat (requested st top_k))). lia.
Qed.

(** When the index holds one vector per record, every vector the index
    returns is a hit. *)
Lemma hits_all_knn st query top_k :
  faiss.d (index st) = 64 →
  length (metadata st) = faiss.ntotal (index st) →
  hits st query top_k
  = faiss.knn (index st) (embedding_of query) (Z.to_nat (requested st top_k)).
Proof.
  intros Hd Hcount. rewrite hits_knn by done. apply filter_id.
  apply Forall_forall. intros p Hp.
  apply knn_elem in Hp as (i & v & Hi & _ & _ & ->).
  apply lookup_lt_Some in Hi. unfold faiss.ntotal in Hcount.
  unfold VectorDB.valid_label.
  rewrite !bool_decide_eq_true_2 by lia. done.
Qed.

(** When moreover no distance reaches [FLT_MAX], every neighbour is a hit
    and there are exactly the requested number of them. *)
Lemma hits_all st query top_k :
  faiss.d (index st) = 64 →
  length (metadata st) = faiss.ntotal (index st) →
  in_range st query →
  hits st query top_k = neighbours st query top_k ∧
  length (hits st query top_k) = Z.to_nat (requested st top_k).
Proof.
  intros Hd Hcount Hrange.
  pose proof (hits_all_knn st query top_k Hd Hcount) as Hknn.
  assert (Hlen : length (hits st query top_k) = Z.to_nat (requested st top_k)).
  { rewrite Hknn, length_knn by done. unfold requested. lia. }
  split; [|done].
  destruct (decide (0 < requested st top_k)%Z) as [Hk|Hk].
  - rewrite neighbours_knn by done. simpl. rewrite <- Hknn, Hlen.
    replace (_ - _) with 0 by lia. by rewrite app_nil_r.
  - rewrite neighbours_none by lia. rewrite Hknn.
    by replace (Z.to_nat (requested st top_k)) with 0 by lia.
Qed.

(** [in_range] can be checked by running the distance computation. *)
Lemma in_range_check st query :
  forallb (λ v, bool_decide (is_Some (faiss.below_max
                   (faiss.fvec_L2sqr (embedding_of query) v))))
    (faiss.xb (index st)) = true →
  in_range st query.
Proof.
  intros Hb. apply Forall_forall. intros v Hv%list_elem_of_In.
  rewrite forallb_forall in Hb. specialize (Hb v Hv).
  by apply bool_decide_eq_true in Hb.
Qed.

Lemma search_raise_run st query top_k :
  metadata st ≠ [] → (top_k ≤ 0)%Z →
  VectorDB.search query top_k st
  = (Raise AssertionError, set_np_random (generator_after query) st).
Proof.
  intros Hmd Hk. unfold VectorDB.search. unfold_monad.
  case_decide as Hlen; [by destruct (metadata st)|].
  rewrite generate_embeddings_run. simpl.
  unfold faiss.search. case_decide; [|done]. case_decide; [lia|done].
Qed.

Lemma search_raise_dim_run st query top_k :
  metadata st ≠ [] → faiss.d (index st) ≠ 64 →
  VectorDB.search query top_k st
  = (Raise AssertionError, set_np_random (generator_after query) st).
Proof.
  intros Hmd Hd. unfold VectorDB.search. unfold_monad.
  case_decide as Hlen; [by destruct (metadata st)|].
  rewrite generate_embeddings_run. simpl.
  unfold faiss.search. rewrite length_embedding_of.
  case_decide; [|done]. by exfalso.
Qed.

(** The two ways in which [search] returns normally. *)
Lemma search_Ok_inv st query top_k ls st' :
  allocated st →
  VectorDB.search query top_k st = (Ok ls, st') →
  (metadata st = [] ∧ ls = [] ∧ st' = st ∧
   hits st query top_k = [] ∧ neighbours st query top_k = []) ∨
  (metadata st ≠ [] ∧ (0 < top_k)%Z ∧ faiss.d (index st) = 64 ∧
   ls = seq (length (heap st)) (length (hits st query top_k)) ∧
   st' = set_heap (heap st ++ (scored st (normaliser st query top_k)
                                 <$> hits st query top_k))
           (set_np_random (generator_after query) st)).
Proof.
  intros Hal Hs. destruct (decide (metadata st = [])) as [Hmd|Hmd].
  - left. rewrite search_empty_run in Hs by done. injection Hs as <- <-.
    assert (Hn : neighbours st query top_k = []).
    { apply neighbours_none. unfold requested. rewrite Hmd. simpl. lia. }
    split_and!; try done. unfold hits. by rewrite Hn.
  - right. destruct (decide (faiss.d (index st) = 64)) as [Hd|Hd].
    + destruct (decide (0 < top_k)%Z) as [Hk|Hk].
      * rewrite search_run in Hs by done. by injection Hs as <- <-.
      * rewrite search_raise_run in Hs by (done || lia). done.
    + rewrite search_raise_dim_run in Hs by done. done.
Qed.

End neighbour_facts.

(** ** Loading and the consistency contract *)

Section contract.
Context `{Numpy}.

Lemma Forall_seq_lt (h rs : list item) :
  Forall (λ l, l < length (h ++ rs)) (seq (length h) (length rs)).
Proof.
  apply Forall_seq. intros j Hj. rewrite length_app. lia.
Qed.

Lemma load_establishes st st' :
  files_consistent (files st) →
  VectorDB.__init__ st = (Ok tt, st') →
  well_formed st' ∧ consistent st' ∧ files_consistent (files st').
Proof.
  intros Hfc Hrun. unfold files_consistent in Hfc.
  destruct (index_file (files st)) as [ix|] eqn:Hix;
    [destruct (metadata_file (files st)) as [rs|] eqn:Hrs|].
  - destruct Hfc as (Hd & Hlen & Hpos).
    rewrite (init_load_run st ix rs) in Hrun by done.
    injection Hrun as <-. unfold well_formed, allocated, consistent, records. simpl.
    rewrite fmap_deref_seq, length_seq.
    split_and!; try done.
    + apply Forall_seq_lt.
    + unfold files_consistent. by rewrite Hix, Hrs.
  - rewrite init_create_run in Hrun by (right; done). injection Hrun as <-.
    unfold well_formed, allocated, consistent, files_consistent. simpl.
    rewrite Hix, Hrs. split_and!; done.
  - rewrite init_create_run in Hrun by (left; done). injection Hrun as <-.
    unfold well_formed, allocated, consistent, files_consistent. simpl.
    rewrite Hix. split_and!; done.
Qed.

Lemma add_preserves st tp ct src e now idx st' :
  well_formed st → consistent st →
  VectorDB.add tp ct src e now st = (Ok idx, st') →
  well_formed st' ∧ consistent st' ∧ files_consistent (files st').
Proof.
  intros [Hd Hwf] [Hlen Hpos] Hrun.
  pose proof (add_Ok_inv _ _ _ _ _ _ _ _ Hrun) as He.
  rewrite add_run in Hrun by done. injection Hrun as <- <-.
  unfold well_formed, allocated, consistent, files_consistent, records. simpl.
  rewrite records_snoc by done.
  assert (Hpos' : positional (records st ++
    [{| id := Z.of_nat (length (metadata st)); topic := tp; content := ct;
        source := src; date := now; score := None |}])).
  { apply positional_snoc; [done|]. simpl. by rewrite length_records. }
  unfold faiss.ntotal in *. simpl.
  rewrite !length_app. simpl.
  split_and!; try done; try lia.
  apply Forall_app. split.
  - eapply Forall_impl; [exact Hwf|]. simpl. intros; lia.
  - apply Forall_singleton. lia.
  - rewrite length_records. lia.
Qed.

Lemma delete_preserves st t b st' :
  well_formed st → consistent st → files_consistent (files st) →
  VectorDB.delete_by_topic t st = (Ok b, st') →
  well_formed st' ∧ consistent st' ∧ files_consistent (files st').
Proof.
  intros [Hd Hwf] Hcons Hfc Hrun.
  destruct (decide (Forall (λ r, topic r ≠ t) (records st))) as [Hall|Hsome].
  - rewrite delete_absent_run in Hrun by done. injection Hrun as <- <-.
    by split_and!.
  - rewrite delete_present_run in Hrun by done. injection Hrun as <- <-.
    set (rs := survivors t (records st)).
    unfold well_formed, allocated, consistent, files_consistent, records. simpl.
    rewrite fmap_deref_renumber.
    unfold faiss.ntotal. simpl.
    rewrite length_seq, length_fmap, length_renumber.
    split_and!; try done; try apply positional_renumber.
    rewrite <- (length_renumber 0 rs).
    apply Forall_seq_lt.
Qed.

End contract.

(** C1, as the code has it: the consistency contract (one index vector per
    record, and [record[i].id == i]) is preserved.  If the persisted pair
    satisfies it, it holds for the store and for the persisted pair after a
    load; if moreover the store satisfies it, it holds for both after every
    [add] and every [delete_by_topic] that return. *)
Theorem consistency_preserved `{Numpy} (o : op) (st st' : state) :
  files_consistent (files st) →
  o = Load ∨ (well_formed st ∧ consistent st) →
  committed o st st' →
  well_formed st' ∧ consistent st' ∧ files_consistent (files st').
Proof.
  intros Hfc Hpre Hrun. destruct o as [|tp ct src e now|t].
  - by apply (load_establishes st).
  - destruct Hpre as [|[Hwf Hcons]]; [done|]. destruct Hrun as [idx Hrun].
    by eapply add_preserves.
  - destruct Hpre as [|[Hwf Hcons]]; [done|]. destruct Hrun as [b Hrun].
    by eapply delete_preserves.
Qed.

(** Witness: the second [add] of the scenario. *)
Lemma consistency_preserved_witness :
  files_consistent (files Scenario.cats) ∧
  well_formed Scenario.cats ∧ consistent Scenario.cats ∧
  well_formed Scenario.cats_dogs ∧ consistent Scenario.cats_dogs ∧
  files_consistent (files Scenario.cats_dogs).
Proof.
  assert (Hfc : files_consistent (files Scenario.cats)).
  { vm_compute. split_and!; reflexivity. }
  assert (Hwf : well_formed Scenario.cats).
  { split; [reflexivity|]. vm_compute. repeat constructor. }
  assert (Hcons : consistent Scenario.cats).
  { split; vm_compute; reflexivity. }
  assert (Hrun : committed
            (Add "Dogs" "Dogs are mammals. They bark." "manual" None
               "2024-01-01 10:05:00") Scenario.cats Scenario.cats_dogs).
  { exists 1%Z.
    refine (run_after (VectorDB.add _ _ _ _ _) Scenario.cats 1%Z _).
    vm_compute. reflexivity. }
  pose proof (consistency_preserved _ _ _ Hfc (or_intror (conj Hwf Hcons)) Hrun)
    as (Hwf' & Hcons' & Hfc').
  exact (conj Hfc (conj Hwf (conj Hcons (conj Hwf' (conj Hcons' Hfc'))))).
Defined.

(** C1, counterexample: a load of the pair left by an interrupted [save]
    returns normally, and the loaded store has two records for one index
    vector. *)
Lemma load_breaks_consistency :
  committed Load Scenario.restarted Scenario.reloaded ∧
  length (metadata Scenario.reloaded) = 2 ∧
  faiss.ntotal (index Scenario.reloaded) = 1 ∧
  ¬ consistent Scenario.reloaded.
Proof.
  split_and!.
  - refine (run_after _ Scenario.restarted tt _). vm_compute. reflexivity.
  - vm_compute. reflexivity.
  - vm_compute. reflexivity.
  - intros [Hlen _]. vm_compute in Hlen. discriminate.
Qed.

(** C2, as the code has it: [create_or_load_vector_db] always returns; when
    both files exist the store is the persisted pair, whatever their counts,
    and otherwise it is the empty store of dimension 64.  The files are left
    as they are. *)
Theorem load_without_validation `{Numpy} (st : state) :
  ∃ st', create_or_load_vector_db st = (Ok tt, st') ∧
         files st' = files st ∧
         match index_file (files st), metadata_file (files st) with
         | Some ix, Some rs => index st' = ix ∧ records st' = rs
         | _, _ => empty_store st'
         end.
Proof.
  unfold create_or_load_vector_db.
  destruct (index_file (files st)) as [ix|] eqn:Hix;
    [destruct (metadata_file (files st)) as [rs|] eqn:Hrs|].
  - eexists. split; [by apply init_load_run|].
    unfold records. simpl. by rewrite fmap_deref_seq.
  - eexists. split; [apply init_create_run; by right|]. done.
  - eexists. split; [apply init_create_run; by left|]. done.
Qed.

(** C2, counterexample: the persisted pair has one vector and two
    records; the loaded store is that pair, not the empty store. *)
Lemma load_uses_inconsistent_pair :
  create_or_load_vector_db Scenario.restarted = (Ok tt, Scenario.reloaded) ∧
  index_file (files Scenario.restarted) = Some (index Scenario.reloaded) ∧
  metadata_file (files Scenario.restarted) = Some (records Scenario.reloaded) ∧
  length (records Scenario.reloaded) ≠ faiss.ntotal (index Scenario.reloaded) ∧
  ¬ empty_store Scenario.reloaded.
Proof.
  split_and!.
  - refine (run_after _ Scenario.restarted tt _). vm_compute. reflexivity.
  - vm_compute. reflexivity.
  - vm_compute. reflexivity.
  - vm_compute. discriminate.
  - intros [_ Hmd]. vm_compute in Hmd. discriminate.
Qed.

(** ** Deleting a topic *)

(** C3: when some record has the topic, [delete_by_topic] returns [True];
    the records left are those with another topic, in their order, with ids
    0, 1, ...; the index is rebuilt from the embeddings of their contents,
    one vector per record.  From records with topics A, A, B, deleting A
    leaves the B record with id 0 and one vector. *)
Theorem delete_rebuilds `{Numpy} (st : state) (t : string) :
  allocated st →
  (∃ r, r ∈ records st ∧ topic r = t) →
  ∃ st', VectorDB.delete_by_topic t st = (Ok true, st') ∧
    records st' = renumber 0 (survivors t (records st)) ∧
    positional (records st') ∧
    index st' = {| faiss.d := 64;
                   faiss.xb := embedding_of ∘ content
                                 <$> survivors t (records st) |} ∧
    faiss.ntotal (index st') = length (survivors t (records st)) ∧
    (∀ a1 a2 b, records st = [a1; a2; b] →
       topic a1 = t → topic a2 = t → topic b ≠ t →
       records st' = [with_id 0 b] ∧ faiss.ntotal (index st') = 1).
Proof.
  intros Hwf (r & Hr & Ht).
  assert (Hsome : ¬ Forall (λ r, topic r ≠ t) (records st)).
  { intros Hall. by eapply Forall_forall in Hall. }
  eexists. split; [by apply delete_present_run|].
  set (rs := survivors t (records st)).
  assert (Hrec : records
    {| heap := heap st ++ renumber 0 rs;
       np_random := generator_after_all (np_random st) (content <$> rs);
       files := {| index_file := Some {| faiss.d := 64;
                     faiss.xb := embedding_of ∘ content <$> rs |};
                   metadata_file := Some (renumber 0 rs) |};
       index := {| faiss.d := 64; faiss.xb := embedding_of ∘ content <$> rs |};
       metadata := seq (length (heap st)) (length rs) |} = renumber 0 rs).
  { unfold records. simpl. apply fmap_deref_renumber. }
  rewrite Hrec. unfold faiss.ntotal. simpl. rewrite length_fmap.
  split_and!; try done; [apply positional_renumber|].
  intros a1 a2 b Hrs Ha1 Ha2 Hb. unfold rs, survivors. rewrite Hrs.
  rewrite !filter_cons, filter_nil.
  repeat case_decide; try done.
Qed.

(** Witness: the store with topics A, A, B. *)
Lemma delete_rebuilds_witness :
  allocated Scenario.a_a_b ∧
  (topic <$> records Scenario.a_a_b) = ["A"; "A"; "B"] ∧
  ∃ st', VectorDB.delete_by_topic "A" Scenario.a_a_b = (Ok true, st') ∧
         (id <$> records st') = [0%Z] ∧
         (topic <$> records st') = ["B"] ∧
         faiss.ntotal (index st') = 1.
Proof.
  assert (Hwf : allocated Scenario.a_a_b).
  { vm_compute. repeat constructor. }
  split; [exact Hwf|]. split; [vm_compute; reflexivity|].
  destruct (delete_rebuilds Scenario.a_a_b "A" Hwf) as (st' & Hrun & Hrec & _ & _ & Hn & _).
  { exists (records Scenario.a_a_b !!! 0). split; vm_compute; [left|reflexivity]. }
  exists st'. rewrite Hrec, Hn. split; [exact Hrun|].
  vm_compute. split_and!; reflexivity.
Defined.

Section delete_total.
Context `{Numpy}.

Lemma rebuild_loop_ok keep : ∀ i new_index new_metadata st,
  faiss.d new_index = 64 →
  ∃ res st', VectorDB.rebuild_loop i keep new_index new_metadata st
             = (Ok res, st').
Proof.
  induction keep as [|l keep IH]; intros i new_index new_metadata st Hd.
  - simpl. unfold_monad. eauto.
  - simpl. unfold_monad. rewrite generate_embeddings_run.
    unfold faiss.add. rewrite length_embedding_of, Hd.
    case_decide; [|done].
    unfold dict_copy, alloc, dict_update. unfold_monad. simpl.
    apply IH. reflexivity.
Qed.

End delete_total.

(** C4: [delete_by_topic] returns [False] exactly when no record has the
    topic, and then leaves the whole state as it was: metadata, index,
    objects and files. *)
Theorem delete_absent_unchanged `{Numpy} (st : state) (t : string) :
  ∃ b st', VectorDB.delete_by_topic t st = (Ok b, st') ∧
           (b = false ↔ ∀ r, r ∈ records st → topic r ≠ t) ∧
           (b = false → st' = st).
Proof.
  destruct (decide (Forall (λ r, topic r ≠ t) (records st))) as [Hall|Hsome].
  - exists false, st. split; [by apply delete_absent_run|].
    split; [|done]. split; [|done]. intros _. by apply Forall_forall.
  - assert (Hlen : length (filter (λ l, topic (deref (heap st) l) ≠ t) (metadata st))
                   ≠ length (metadata st)).
    { intros Hlen. apply Hsome. apply length_filter_all in Hlen.
      by apply Forall_records. }
    unfold VectorDB.delete_by_topic. unfold_monad.
    case_decide; [done|].
    destruct (rebuild_loop_ok
                (filter (λ l, topic (deref (heap st) l) ≠ t) (metadata st))
                0 (faiss.new 64) [] st eq_refl) as ([ix md] & st1 & ->).
    simpl. eexists true, _. split; [reflexivity|].
    split; [|done]. split; [done|].
    intros Hall. exfalso. apply Hsome. by apply Forall_forall.
Qed.

(** ** Scores *)

Section score_facts.

Lemma similarity_pos m d :
  (0 < m)%Q → VectorDB.similarity m d = (1 - d / m)%Q.
Proof.
  intros Hm. unfold VectorDB.similarity.
  destruct (Qlt_le_dec 0 m) as [_|Hle]; [done|].
  exfalso. by apply (Qlt_not_le _ _ Hm).
Qed.

Lemma similarity_nonpos m d : (m <= 0)%Q → VectorDB.similarity m d = 0%Q.
Proof.
  intros Hm. unfold VectorDB.similarity.
  destruct (Qlt_le_dec 0 m) as [Hlt|_]; [|done].
  exfalso. by apply (Qlt_not_le _ _ Hlt).
Qed.

Lemma div_bounds m d : (0 < m)%Q → (0 <= d)%Q → (d <= m)%Q →
  (0 <= d / m)%Q ∧ (d / m <= 1)%Q.
Proof.
  intros Hm Hd Hdm. split.
  - apply Qle_shift_div_l; [done|]. lra.
  - apply Qle_shift_div_r; [done|]. lra.
Qed.

Lemma similarity_bounds m d : (0 <= d)%Q → (d <= m)%Q →
  (0 <= VectorDB.similarity m d)%Q ∧ (VectorDB.similarity m d <= 1)%Q.
Proof.
  intros Hd Hdm. destruct (Qlt_le_dec 0 m) as [Hm|Hm].
  - rewrite similarity_pos by done.
    destruct (div_bounds m d Hm Hd Hdm). split; lra.
  - rewrite similarity_nonpos by done. split; lra.
Qed.

Lemma similarity_antitone m d1 d2 : (d1 <= d2)%Q →
  (VectorDB.similarity m d2 <= VectorDB.similarity m d1)%Q.
Proof.
  intros Hd. destruct (Qlt_le_dec 0 m) as [Hm|Hm].
  - rewrite !similarity_pos by done.
    assert (d1 / m <= d2 / m)%Q; [|lra].
    unfold Qdiv. apply Qmult_le_compat_r; [done|].
    apply Qlt_le_weak, Qinv_lt_0_compat, Hm.
  - rewrite !similarity_nonpos by done. apply Qle_refl.
Qed.

Lemma similarity_at_max m d : (0 < m)%Q → (d == m)%Q →
  (VectorDB.similarity m d == 0)%Q.
Proof.
  intros Hm Hd. rewrite similarity_pos by done. rewrite Hd.
  field. intros Hz. rewrite Hz in Hm. by apply (Qlt_irrefl 0).
Qed.

Lemma max_distance_spec ds : ds ≠ [] →
  VectorDB.max_distance ds ∈ ds ∧
  ∀ d, d ∈ ds → (d <= VectorDB.max_distance ds)%Q.
Proof.
  destruct ds as [|x xs]; [done|]. intros _. simpl. split.
  - apply py_max_elem.
  - intros d. apply py_max_upper.
Qed.

End score_facts.

(** ** The results of [search] *)

Section result_facts.
Context `{Numpy}.

(** The objects returned by [search] are the records of the hits, each
    with its score. *)
Lemma search_results st query top_k ls st' :
  allocated st →
  VectorDB.search query top_k st = (Ok ls, st') →
  deref (heap st') <$> ls
  = scored st (normaliser st query top_k) <$> hits st query top_k.
Proof.
  intros Hwf Hs.
  destruct (search_Ok_inv _ _ _ _ _ Hwf Hs)
    as [(_ & -> & -> & Hh & _)|(_ & _ & _ & -> & ->)]; [by rewrite Hh|].
  simpl.
  rewrite <- (length_fmap (scored st (normaliser st query top_k))).
  apply fmap_deref_seq.
Qed.

Lemma hits_subseteq st query top_k p :
  p ∈ hits st query top_k → p ∈ neighbours st query top_k.
Proof. unfold hits. by intros [_ ?]%list_elem_of_filter. Qed.

Lemma hit_distance_nonneg st query top_k p :
  faiss.d (index st) = 64 → p ∈ hits st query top_k → (0 <= p.1)%Q.
Proof.
  intros Hd Hp. apply hits_elem in Hp as (i & v & _ & _ & _ & Hv & _); [|done].
  by eapply fvec_L2sqr_nonneg.
Qed.

Lemma hit_distance_le_max st query top_k p :
  p ∈ hits st query top_k → (p.1 <= normaliser st query top_k)%Q.
Proof.
  intros Hp%hits_subseteq. unfold normaliser.
  assert (Hin : p.1 ∈ (neighbours st query top_k).*1).
  { apply list_elem_of_fmap. eauto. }
  apply max_distance_spec; [|done]. intros Hnil. rewrite Hnil in Hin.
  by apply elem_of_nil in Hin.
Qed.


Lemma neighbours_nonempty st query top_k ls st' :
  allocated st → metadata st ≠ [] →
  VectorDB.search query top_k st = (Ok ls, st') →
  neighbours st query top_k ≠ [].
Proof.
  intros Hwf Hmd Hs.
  destruct (search_Ok_inv _ _ _ _ _ Hwf Hs)
    as [(? & _)|(_ & Hk & Hd & _)]; [done|].
  assert (Hreq : (0 < requested st top_k)%Z).
  { unfold requested. destruct (metadata st); [done|]. simpl length. lia. }
  rewrite neighbours_knn by done. simpl. intros Hnil.
  apply (f_equal length) in Hnil.
  rewrite length_app, length_replicate in Hnil. simpl in Hnil. lia.
Qed.

End result_facts.

(** C5, as the code has it: every returned record carries the score
    [1 - d / m], where [d] is its distance and [m] the largest of the
    distances that the index returned for this query, the entries skipped
    by the guard of line 109 and the padding entries included; when [m] is
    0 the score is 0; every score lies between 0 and 1.  When the index
    holds one vector per record and no distance reaches [FLT_MAX], the
    entries that the index returned are exactly the returned results, and
    [m] is the largest distance among them. *)
Theorem search_scores `{Numpy} (st : state) (query : string) (top_k : Z)
    (ls : list loc) (st' : state) :
  allocated st →
  VectorDB.search query top_k st = (Ok ls, st') →
  let m := normaliser st query top_k in
  let ds := (neighbours st query top_k).*1 in
  deref (heap st') <$> ls = scored st m <$> hits st query top_k ∧
  (metadata st ≠ [] → m ∈ ds ∧ ∀ d, d ∈ ds → (d <= m)%Q) ∧
  (length (metadata st) = faiss.ntotal (index st) → in_range st query →
   hits st query top_k = neighbours st query top_k ∧
   m = VectorDB.max_distance (hits st query top_k).*1) ∧
  Forall (λ p,
    score (scored st m p) = Some (VectorDB.similarity m p.1) ∧
    ((0 < m)%Q → VectorDB.similarity m p.1 = (1 - p.1 / m)%Q) ∧
    ((m == 0)%Q → VectorDB.similarity m p.1 = 0%Q) ∧
    (0 <= VectorDB.similarity m p.1)%Q ∧ (VectorDB.similarity m p.1 <= 1)%Q)
    (hits st query top_k).
Proof.
  intros Hal Hs m ds.
  assert (Hres : deref (heap st') <$> ls = scored st m <$> hits st query top_k)
    by by apply search_results.
  destruct (search_Ok_inv _ _ _ _ _ Hal Hs)
    as [(Hmd & _ & _ & Hh & Hn)|(Hmd & Hk & Hd & _)].
  - split_and!; [done|done| |by rewrite Hh].
    intros _ _. unfold m, normaliser. by rewrite Hh, Hn.
  - split_and!; [done| | |].
    + intros _. apply max_distance_spec. unfold ds. intros Hnil.
      apply fmap_nil_inv in Hnil. by eapply neighbours_nonempty.
    + intros Hcount Hrange.
      destruct (hits_all st query top_k Hd Hcount Hrange) as [Hall _].
      split; [done|]. unfold m, normaliser. by rewrite Hall.
    + apply Forall_forall. intros p Hp.
      assert (Hb : (0 <= VectorDB.similarity m p.1)%Q ∧
                   (VectorDB.similarity m p.1 <= 1)%Q).
      { apply similarity_bounds;
          [by eapply hit_distance_nonneg | by apply hit_distance_le_max]. }
      split_and!; [reflexivity| | |apply Hb|apply Hb].
      * apply similarity_pos.
      * intros Hm. apply similarity_nonpos. rewrite Hm. apply Qle_refl.
Qed.

(** C6: the returned records follow the hits, which are in ascending order
    of the squared L2 distance between the embedded query and the stored
    vector, hence in descending order of score; the neighbour search itself
    yields at most [min k ntotal] pairs, nearest first, and exactly that
    many when no distance reaches [FLT_MAX]. *)
Theorem search_ordered `{Numpy} (st : state) (query : string) (top_k : Z)
    (ls : list loc) (st' : state) :
  allocated st →
  VectorDB.search query top_k st = (Ok ls, st') →
  let m := normaliser st query top_k in
  let hs := hits st query top_k in
  deref (heap st') <$> ls = scored st m <$> hs ∧
  Forall (λ p, ∃ i v, p.2 = Z.of_nat i ∧
                      faiss.xb (index st) !! i = Some v ∧
                      faiss.fvec_L2sqr (embedding_of query) v
                      = faiss.finite p.1) hs ∧
  StronglySorted (λ p p', (p.1 <= p'.1)%Q) hs ∧
  StronglySorted (λ p p', (VectorDB.similarity m p'.1
                           <= VectorDB.similarity m p.1)%Q) hs ∧
  (∀ k, let nn := faiss.knn (index st) (embedding_of query) k in
        length nn ≤ k `min` faiss.ntotal (index st) ∧
        (in_range st query → length nn = k `min` faiss.ntotal (index st)) ∧
        StronglySorted (λ p p', (p.1 <= p'.1)%Q) nn).
Proof.
  intros Hal Hs m hs.
  assert (Hres : deref (heap st') <$> ls = scored st m <$> hs)
    by by apply search_results.
  assert (Hknn : ∀ k, let nn := faiss.knn (index st) (embedding_of query) k in
            length nn ≤ k `min` faiss.ntotal (index st) ∧
            (in_range st query →
             length nn = k `min` faiss.ntotal (index st)) ∧
            StronglySorted (λ p p', (p.1 <= p'.1)%Q) nn).
  { intros k nn. split_and!;
      [apply length_knn_le | apply length_knn | apply knn_sorted]. }
  destruct (search_Ok_inv _ _ _ _ _ Hal Hs)
    as [(_ & _ & _ & Hh & _)|(_ & _ & Hd & _)].
  - unfold hs in *. rewrite Hh in *.
    split_and!; [done|constructor|constructor|constructor|done].
  - assert (Hsorted : StronglySorted (λ p p', (p.1 <= p'.1)%Q) hs)
      by by apply hits_sorted.
    split_and!; [done| |done| |done].
    + apply Forall_forall. intros p Hp.
      apply hits_elem in Hp as (i & v & ? & _ & ? & ? & _); [|done]. eauto.
    + eapply StronglySorted_weaken; [|exact Hsorted].
      intros p p' Hle. by apply similarity_antitone.
Qed.

(** C5, counterexample: in the store loaded from the pair left by an
    interrupted [save], [search] returns one record.  The largest distance
    among the returned results is its own, which would give the score 0;
    the normaliser is the distance of the padding entry of the index, which
    is not the distance of a returned result, and the score is not 0. *)
Lemma normaliser_not_among_results :
  metadata Scenario.reloaded ≠ [] ∧
  (VectorDB.search "mammals" 2 Scenario.reloaded).1 = Ok [2] ∧
  (0 < VectorDB.max_distance (hits Scenario.reloaded "mammals" 2).*1)%Q ∧
  (normaliser Scenario.reloaded "mammals" 2
     ∉ (hits Scenario.reloaded "mammals" 2).*1) ∧
  ∃ d s, (hits Scenario.reloaded "mammals" 2).*1 = [d] ∧
         score (deref (heap Scenario.reloaded_searched) 2) = Some s ∧
         ¬ (s == 1 - d / VectorDB.max_distance
                          (hits Scenario.reloaded "mammals" 2).*1)%Q.
Proof.
  split_and!.
  - vm_compute. discriminate.
  - vm_compute. reflexivity.
  - vm_compute. reflexivity.
  - intros Hin. vm_compute in Hin.
    apply list_elem_of_singleton in Hin. discriminate Hin.
  - eexists _, _. split_and!; [vm_compute; reflexivity..|].
    vm_compute. discriminate.
Qed.

(** ** The number of results *)

(** C7, as the code has it: on a store without records [search] returns the
    empty list and [get_all_topics] the empty collection, whatever the
    arguments; on a store with records whose index has dimension 64 and
    holds one vector per record, none at a distance from the query that
    reaches [FLT_MAX], [search] with [top_k ≥ 1] returns exactly
    [min(top_k, count)] results; on any store with records it returns at
    most that many, when it returns. *)
Theorem search_count `{Numpy} (st : state) (query : string) (top_k : Z) :
  (metadata st = [] →
   VectorDB.search query top_k st = (Ok [], st) ∧
   VectorDB.get_all_topics st = (Ok [], st)) ∧
  (well_formed st →
   length (metadata st) = faiss.ntotal (index st) →
   in_range st query →
   metadata st ≠ [] → (0 < top_k)%Z →
   ∃ ls st', VectorDB.search query top_k st = (Ok ls, st') ∧
             Z.of_nat (length ls)
             = Z.min top_k (Z.of_nat (length (metadata st)))) ∧
  (∀ ls st', allocated st → metadata st ≠ [] →
     VectorDB.search query top_k st = (Ok ls, st') →
     (Z.of_nat (length ls)
      ≤ Z.min top_k (Z.of_nat (length (metadata st))))%Z).
Proof.
  split_and!.
  - intros Hmd. split; [by apply search_empty_run|].
    unfold VectorDB.get_all_topics. unfold_monad. rewrite Hmd. simpl.
    by rewrite elements_empty.
  - intros Hwf Hcount Hrange Hmd Hk. eexists _, _.
    split; [by apply search_run|].
    rewrite length_seq. destruct Hwf as [Hd _].
    destruct (hits_all st query top_k Hd Hcount Hrange) as [_ ->].
    unfold requested. destruct (metadata st); [done|]. simpl length. lia.
  - intros ls st' Hal Hmd Hs.
    destruct (search_Ok_inv _ _ _ _ _ Hal Hs)
      as [(? & _)|(_ & Hk & Hd & -> & _)]; [done|].
    rewrite length_seq. pose proof (length_hits_le st query top_k Hd) as Hle.
    unfold requested in *. destruct (metadata st); [done|].
    simpl length in *. lia.
Qed.

(** C7, counterexample: the store loaded from the pair left by an
    interrupted [save] has two records and one vector; [search] with
    [top_k = 2] returns one result, not [min(2, 2)]. *)
Lemma search_returns_fewer :
  length (metadata Scenario.reloaded) = 2 ∧
  (VectorDB.search "mammals" 2 Scenario.reloaded).1 = Ok [2] ∧
  Z.of_nat (length [2])
  ≠ Z.min 2 (Z.of_nat (length (metadata Scenario.reloaded))).
Proof.
  split_and!.
  - vm_compute. reflexivity.
  - vm_compute. reflexivity.
  - vm_compute. discriminate.
Qed.

(** The same happens in a store with one vector per record when a
    distance overflows: of the two notes of [far_apart], [search] with
    [top_k = 2] returns only the near one, the index pads the second entry,
    and the score of the returned record is not 0. *)
Example search_overflow :
  well_formed Scenario.far_apart ∧
  length (metadata Scenario.far_apart) = 2 ∧
  faiss.ntotal (index Scenario.far_apart) = 2 ∧
  ¬ in_range Scenario.far_apart "mammals" ∧
  (VectorDB.search "mammals" 2 Scenario.far_apart).1 = Ok [2] ∧
  (neighbours Scenario.far_apart "mammals" 2).*2 = [0%Z; (-1)%Z] ∧
  normaliser Scenario.far_apart "mammals" 2 = faiss.FLT_MAX ∧
  (topic <$> (deref (heap Scenario.far_apart_searched) <$> [2])) = ["Near"] ∧
  ∃ s, score (deref (heap Scenario.far_apart_searched) 2) = Some s ∧
       (0 < s)%Q.
Proof.
  split_and!.
  - split; [reflexivity|]. vm_compute. repeat constructor.
  - vm_compute. reflexivity.
  - vm_compute. reflexivity.
  - intros Hr. unfold in_range in Hr.
    apply (Forall_lookup_1 _ _ 1 (replicate 64 100000000000000000000%Q))
      in Hr as [s Hs]; [|vm_compute; reflexivity].
    vm_compute in Hs. discriminate Hs.
  - vm_compute. reflexivity.
  - vm_compute. reflexivity.
  - vm_compute. reflexivity.
  - vm_compute. reflexivity.
  - eexists. split; [vm_compute; reflexivity|].
    vm_compute. reflexivity.
Qed.

(** ** The farthest result *)

(** C9, as the code has it: when some result has a positive distance, a
    result whose distance equals the normaliser (the largest distance among
    the neighbours returned by the index) has score 0.  When the index holds
    one vector per record and no distance reaches [FLT_MAX], the normaliser
    is the distance of a result, so some returned record has score 0; with
    [top_k = 1] it is the only result. *)
Theorem farthest_scores_zero `{Numpy} (st : state) (query : string)
    (top_k : Z) (ls : list loc) (st' : state) :
  allocated st →
  VectorDB.search query top_k st = (Ok ls, st') →
  (∃ p, p ∈ hits st query top_k ∧ (0 < p.1)%Q) →
  let m := normaliser st query top_k in
  let hs := hits st query top_k in
  deref (heap st') <$> ls = scored st m <$> hs ∧
  (∀ p, p ∈ hs → (p.1 <= m)%Q) ∧
  (∀ p, p ∈ hs → (p.1 == m)%Q →
        ∃ s, score (scored st m p) = Some s ∧ (s == 0)%Q) ∧
  (length (metadata st) = faiss.ntotal (index st) → in_range st query →
   m ∈ hs.*1 ∧
   (∃ r s, r ∈ deref (heap st') <$> ls ∧ score r = Some s ∧ (s == 0)%Q) ∧
   (top_k = 1%Z →
    ∃ l r s, ls = [l] ∧ heap st' !! l = Some r ∧
             score r = Some s ∧ (s == 0)%Q)).
Proof.
  intros Hal Hs (p0 & Hp0 & Hpos) m hs.
  assert (Hres : deref (heap st') <$> ls = scored st m <$> hs)
    by by apply search_results.
  destruct (search_Ok_inv _ _ _ _ _ Hal Hs)
    as [(_ & _ & _ & Hh & _)|(Hmd & Hk & Hd & Hls & Hst)].
  { rewrite Hh in Hp0. by apply elem_of_nil in Hp0. }
  assert (Hub : ∀ p, p ∈ hs → (p.1 <= m)%Q).
  { intros p Hp. by apply hit_distance_le_max. }
  assert (Hmpos : (0 < m)%Q).
  { eapply Qlt_le_trans; [exact Hpos|]. by apply Hub. }
  assert (Hzero : ∀ p, p ∈ hs → (p.1 == m)%Q →
            ∃ s, score (scored st m p) = Some s ∧ (s == 0)%Q).
  { intros p _ Hp. eexists. split; [reflexivity|].
    by apply similarity_at_max. }
  split_and!; [done|done|done|]. intros Hcount Hrange.
  destruct (hits_all st query top_k Hd Hcount Hrange) as [Hall Hlen].
  assert (Hm : m ∈ hs.*1).
  { unfold hs, m, normaliser. rewrite Hall. apply max_distance_spec.
    intros Hnil%fmap_nil_inv. by eapply neighbours_nonempty. }
  assert (Hsome : ∃ r s, r ∈ deref (heap st') <$> ls ∧
                         score r = Some s ∧ (s == 0)%Q).
  { apply list_elem_of_fmap in Hm as (p & Hpm & Hp).
    destruct (Hzero p Hp) as (s & Hsc & Hs0); [by rewrite Hpm|].
    exists (scored st m p), s. split_and!; [|done|done].
    rewrite Hres. apply list_elem_of_fmap. eauto. }
  split_and!; [done|done|]. intros ->.
  assert (Hone : length hs = 1).
  { unfold hs. rewrite Hlen. unfold requested.
    destruct (metadata st); [done|]. simpl length. lia. }
  destruct Hsome as (r & s & Hr & Hsc & Hs0).
  fold hs in Hls. rewrite Hone in Hls. simpl in Hls. subst ls.
  apply list_elem_of_singleton in Hr.
  exists (length (heap st)), r, s. split_and!; [done| |done|done].
  rewrite Hr. unfold deref.
  apply list_lookup_lookup_total_lt.
  rewrite Hst. simpl. rewrite length_app, length_fmap. fold hs. lia.
Qed.

(** C9, counterexample: in the store loaded from the pair left by an
    interrupted [save], [search] returns one record; its distance is
    positive and is the largest among the returned records, and its score
    is not 0, because the normaliser is the distance of a padding entry of
    the index. *)
Lemma farthest_score_not_zero :
  (VectorDB.search "mammals" 2 Scenario.reloaded).1 = Ok [2] ∧
  length (hits Scenario.reloaded "mammals" 2) = 1 ∧
  (∃ p, p ∈ hits Scenario.reloaded "mammals" 2 ∧ (0 < p.1)%Q) ∧
  normaliser Scenario.reloaded "mammals" 2 = faiss.FLT_MAX ∧
  ∃ s, score (deref (heap Scenario.reloaded_searched) 2) = Some s ∧
       ¬ (s == 0)%Q.
Proof.
  split_and!.
  - vm_compute. reflexivity.
  - vm_compute. reflexivity.
  - exists (hits Scenario.reloaded "mammals" 2 !!! 0).
    split; vm_compute; [left|reflexivity].
  - vm_compute. reflexivity.
  - eexists. split; [vm_compute; reflexivity|].
    vm_compute. discriminate.
Qed.

(** ** Queries leave the store as it is *)

Section frame_facts.
Context `{Numpy}.

(** The loop of [search] only creates objects: it returns the new
    addresses after [results] and leaves every other part of the state,
    and every object that existed, untouched. *)
Lemma search_loop_frame distances indices : ∀ i results st,
  ∃ new, VectorDB.search_loop distances i indices results st
         = (Ok (results ++ seq (length (heap st)) (length new)),
            set_heap (heap st ++ new) st).
Proof.
  induction indices as [|idx rest IH]; intros i results st.
  - exists []. simpl. unfold_monad. rewrite !app_nil_r. by destruct st.
  - simpl. unfold_monad. simpl.
    destruct (VectorDB.valid_label (length (metadata st)) idx);
      [|apply IH].
    unfold dict_copy, alloc, dict_update. unfold_monad. simpl.
    rewrite deref_fresh, insert_fresh.
    set (r := with_score _ _).
    change (set_heap (heap st ++ [r]) (set_heap _ st))
      with (set_heap (heap st ++ [r]) st).
    destruct (IH (S i) (results ++ [length (heap st)])
                (set_heap (heap st ++ [r]) st)) as [new ->].
    exists (r :: new). simpl. rewrite length_app. simpl.
    replace (length (heap st) + 1) with (S (length (heap st))) by lia.
    by rewrite <- !app_assoc.
Qed.

Lemma search_frame st query top_k :
  ∃ o new g, VectorDB.search query top_k st
             = (o, set_heap (heap st ++ new) (set_np_random g st)) ∧
             ∀ ls, o = Ok ls → ls = seq (length (heap st)) (length new).
Proof.
  unfold VectorDB.search. unfold_monad. case_decide.
  - exists (Ok []), [], (np_random st). split.
    + rewrite app_nil_r. by destruct st.
    + by intros ls [= <-].
  - rewrite generate_embeddings_run. simpl.
    destruct (faiss.search _ _ _) as [[ds lbls]|].
    + destruct (search_loop_frame ds lbls 0 []
                  (set_np_random (generator_after query) st)) as [new ->].
      exists (Ok (seq (length (heap st)) (length new))), new,
        (generator_after query).
      split; [done|]. by intros ls [= <-].
    + exists (Raise AssertionError), [], (generator_after query). split.
      * rewrite app_nil_r. by destruct st.
      * by intros ls [=].
Qed.

End frame_facts.

(** C10: [search], [get_by_topic] (the exact-match branch of
    [search_vector_db]) and [get_all_topics] do not change the metadata
    sequence, the index or the files, whatever they return.
    [search] leaves every existing object as it was: the objects it returns
    are new ones, so the score is never written into a stored record. *)
Theorem queries_read_only `{Numpy} (st : state) :
  (∀ query top_k o st',
     VectorDB.search query top_k st = (o, st') →
     index st' = index st ∧ metadata st' = metadata st ∧
     files st' = files st ∧
     (∀ l r, heap st !! l = Some r → heap st' !! l = Some r) ∧
     (∀ ls, o = Ok ls →
            Forall (λ l, heap st !! l = None ∧ is_Some (heap st' !! l)) ls)) ∧
  (∀ t, ∃ ls, VectorDB.get_by_topic t st = (Ok ls, st) ∧
              search_vector_db t 5 true st = (Ok ls, st) ∧
              ∀ l, l ∈ ls → l ∈ metadata st) ∧
  (∃ ts, VectorDB.get_all_topics st = (Ok ts, st)).
Proof.
  split_and!.
  - intros query top_k o st' Hs.
    destruct (search_frame st query top_k) as (o' & new & g & Hrun & Hls).
    rewrite Hrun in Hs. injection Hs as -> <-. simpl.
    split_and!; try done.
    + intros l r Hl. by apply lookup_app_l_Some.
    + intros ls ->%Hls. apply Forall_seq. intros j Hj. split.
      * apply lookup_ge_None. lia.
      * apply lookup_lt_is_Some. rewrite length_app. lia.
  - intros t. eexists. split_and!; [reflexivity|reflexivity|].
    by intros l [_ ?]%list_elem_of_filter.
  - eexists. reflexivity.
Qed.

(** ** The embedding *)

(** C8: the vector returned by [generate_embeddings] is [embedding_of text],
    a function of the text alone: the same in every state, the same when the
    call is repeated, and of length 64.  The call changes nothing but
    numpy's generator, which it seeds from the text. *)
Theorem embedding_deterministic `{Numpy} (text : string) (st1 st2 : state) :
  let v := embedding_of text in
  let seeded := set_np_random (generator_after text) in
  generate_embeddings text st1 = (Ok v, seeded st1) ∧
  generate_embeddings text st2 = (Ok v, seeded st2) ∧
  generate_embeddings text (seeded st1) = (Ok v, seeded st1) ∧
  length v = 64.
Proof.
  intros v seeded. split_and!.
  - apply generate_embeddings_run.
  - apply generate_embeddings_run.
  - rewrite generate_embeddings_run. reflexivity.
  - apply length_embedding_of.
Qed.

(** ** The scenario of the specification *)

Lemma cats_dogs_allocated : allocated Scenario.cats_dogs.
Proof. vm_compute. repeat constructor. Qed.

Lemma cats_dogs_well_formed : well_formed Scenario.cats_dogs.
Proof. split; [reflexivity|exact cats_dogs_allocated]. Qed.

Lemma cats_dogs_count :
  length (metadata Scenario.cats_dogs) = faiss.ntotal (index Scenario.cats_dogs).
Proof. vm_compute. reflexivity. Qed.

Lemma cats_dogs_in_range : in_range Scenario.cats_dogs "mammals".
Proof. apply in_range_check. vm_compute. reflexivity. Qed.

Lemma cats_dogs_search :
  VectorDB.search "mammals" 2 Scenario.cats_dogs
  = (Ok [2; 3], Scenario.searched).
Proof.
  refine (run_after (VectorDB.search "mammals" 2) Scenario.cats_dogs [2; 3] _).
  vm_compute. reflexivity.
Qed.

Lemma cats_dogs_positive_hit :
  ∃ p, p ∈ hits Scenario.cats_dogs "mammals" 2 ∧ (0 < p.1)%Q.
Proof.
  exists (hits Scenario.cats_dogs "mammals" 2 !!! 0).
  split; vm_compute; [left|reflexivity].
Qed.

(** Witness of C5: both results of the scenario have a score in [0,1],
    and the normaliser is the larger of their two distances. *)
Lemma search_scores_witness :
  allocated Scenario.cats_dogs ∧
  VectorDB.search "mammals" 2 Scenario.cats_dogs
  = (Ok [2; 3], Scenario.searched) ∧
  length (metadata Scenario.cats_dogs)
  = faiss.ntotal (index Scenario.cats_dogs) ∧
  in_range Scenario.cats_dogs "mammals" ∧
  normaliser Scenario.cats_dogs "mammals" 2
  = VectorDB.max_distance (hits Scenario.cats_dogs "mammals" 2).*1 ∧
  Forall (λ p,
    (0 <= VectorDB.similarity (normaliser Scenario.cats_dogs "mammals" 2) p.1)%Q ∧
    (VectorDB.similarity (normaliser Scenario.cats_dogs "mammals" 2) p.1 <= 1)%Q)
    (hits Scenario.cats_dogs "mammals" 2).
Proof.
  split; [exact cats_dogs_allocated|]. split; [exact cats_dogs_search|].
  split; [exact cats_dogs_count|]. split; [exact cats_dogs_in_range|].
  pose proof (search_scores Scenario.cats_dogs "mammals" 2 [2; 3]
                Scenario.searched cats_dogs_allocated cats_dogs_search)
    as (_ & _ & Hmax & Hall).
  split; [exact (proj2 (Hmax cats_dogs_count cats_dogs_in_range))|].
  eapply Forall_impl; [exact Hall|]. simpl. tauto.
Defined.

(** Witness of C6: the two results of the scenario are in ascending order
    of distance, and the index returns both vectors. *)
Lemma search_ordered_witness :
  allocated Scenario.cats_dogs ∧
  VectorDB.search "mammals" 2 Scenario.cats_dogs
  = (Ok [2; 3], Scenario.searched) ∧
  StronglySorted (λ p p', (p.1 <= p'.1)%Q)
    (hits Scenario.cats_dogs "mammals" 2) ∧
  length (faiss.knn (index Scenario.cats_dogs) (embedding_of "mammals") 2)
  = 2 `min` faiss.ntotal (index Scenario.cats_dogs).
Proof.
  split; [exact cats_dogs_allocated|]. split; [exact cats_dogs_search|].
  pose proof (search_ordered Scenario.cats_dogs "mammals" 2 [2; 3]
                Scenario.searched cats_dogs_allocated cats_dogs_search)
    as (_ & _ & Hsorted & _ & Hknn).
  split; [exact Hsorted|].
  exact (proj1 (proj2 (Hknn 2)) cats_dogs_in_range).
Defined.

(** Witness of C7: [search("mammals", 2)] on the two notes of the scenario
    returns two results. *)
Lemma search_count_witness :
  well_formed Scenario.cats_dogs ∧
  length (metadata Scenario.cats_dogs)
  = faiss.ntotal (index Scenario.cats_dogs) ∧
  in_range Scenario.cats_dogs "mammals" ∧
  metadata Scenario.cats_dogs ≠ [] ∧ (0 < 2)%Z ∧
  ∃ ls st', VectorDB.search "mammals" 2 Scenario.cats_dogs = (Ok ls, st') ∧
            Z.of_nat (length ls)
            = Z.min 2 (Z.of_nat (length (metadata Scenario.cats_dogs))).
Proof.
  assert (Hmd : metadata Scenario.cats_dogs ≠ []).
  { vm_compute. discriminate. }
  assert (Hk : (0 < 2)%Z) by lia.
  split; [exact cats_dogs_well_formed|]. split; [exact cats_dogs_count|].
  split; [exact cats_dogs_in_range|].
  split; [exact Hmd|]. split; [exact Hk|].
  exact (proj1 (proj2 (search_count Scenario.cats_dogs "mammals" 2))
           cats_dogs_well_formed cats_dogs_count cats_dogs_in_range Hmd Hk).
Defined.

(** Witness of C9: one of the two results of the scenario has score 0. *)
Lemma farthest_scores_zero_witness :
  allocated Scenario.cats_dogs ∧
  VectorDB.search "mammals" 2 Scenario.cats_dogs
  = (Ok [2; 3], Scenario.searched) ∧
  (∃ p, p ∈ hits Scenario.cats_dogs "mammals" 2 ∧ (0 < p.1)%Q) ∧
  length (metadata Scenario.cats_dogs)
  = faiss.ntotal (index Scenario.cats_dogs) ∧
  in_range Scenario.cats_dogs "mammals" ∧
  ∃ r s, r ∈ deref (heap Scenario.searched) <$> [2; 3] ∧
         score r = Some s ∧ (s == 0)%Q.
Proof.
  split; [exact cats_dogs_allocated|]. split; [exact cats_dogs_search|].
  split; [exact cats_dogs_positive_hit|]. split; [exact cats_dogs_count|].
  split; [exact cats_dogs_in_range|].
  exact (proj1 (proj2 (proj2 (proj2 (proj2
    (farthest_scores_zero Scenario.cats_dogs "mammals" 2 [2; 3]
       Scenario.searched cats_dogs_allocated cats_dogs_search
       cats_dogs_positive_hit))) cats_dogs_count cats_dogs_in_range))).
Defined.

(** The scenario, run: ids, topics and the order of the results. *)
Example scenario_run :
  (id <$> records Scenario.cats_dogs) = [0%Z; 1%Z] ∧
  (topic <$> (deref (heap Scenario.searched) <$> [2; 3])) = ["Cats"; "Dogs"] ∧
  (VectorDB.get_by_topic "Cats" Scenario.cats_dogs).1 = Ok [0] ∧
  (VectorDB.delete_by_topic "Cats" Scenario.cats_dogs).1 = Ok true ∧
  (VectorDB.get_all_topics
     (after (VectorDB.delete_by_topic "Cats") Scenario.cats_dogs)).1
  = Ok ["Dogs"].
Proof. vm_compute. split_and!; reflexivity. Qed.


(** * Further properties of the store *)

(** ** Saving and loading *)

(** X1: what [save] writes, [__init__] reads back: a store loaded from the
    files left by [save] has the index and the records of the saved store,
    and a query has the same neighbours, hits and normaliser in both. *)
Theorem save_load_round_trip `{Numpy} (st st0 : state) :
  files st0 = files (after VectorDB.save st) →
  ∃ st', VectorDB.__init__ st0 = (Ok tt, st') ∧
         index st' = index st ∧
         records st' = records st ∧
         allocated st' ∧
         ∀ query top_k,
           hits st' query top_k = hits st query top_k ∧
           normaliser st' query top_k = normaliser st query top_k.
Proof.
  intros Hfiles. unfold after in Hfiles. rewrite save_run in Hfiles.
  simpl in Hfiles.
  eexists. split.
  { apply init_load_run; rewrite Hfiles; reflexivity. }
  assert (Hrec : records
    {| heap := heap st0 ++ records st; np_random := np_random st0;
       files := files st0; index := index st;
       metadata := seq (length (heap st0)) (length (records st)) |}
    = records st).
  { unfold records at 1. simpl. apply fmap_deref_seq. }
  split_and!; [done|done| |].
  - unfold allocated. simpl. apply Forall_seq_lt.
  - intros query top_k.
    unfold hits, normaliser, neighbours, requested. simpl.
    by rewrite length_seq, length_records.
Qed.

(** Witness of X1: the scenario store, saved and loaded by a new process. *)
Lemma save_load_round_trip_witness :
  files (set_files (files (after VectorDB.save Scenario.cats_dogs)) Sample.fresh)
  = files (after VectorDB.save Scenario.cats_dogs) ∧
  ∃ st', VectorDB.__init__
           (set_files (files (after VectorDB.save Scenario.cats_dogs))
              Sample.fresh) = (Ok tt, st') ∧
         index st' = index Scenario.cats_dogs ∧
         records st' = records Scenario.cats_dogs.
Proof.
  split; [reflexivity|].
  destruct (save_load_round_trip Scenario.cats_dogs
              (set_files (files (after VectorDB.save Scenario.cats_dogs))
                 Sample.fresh) eq_refl) as (st' & Hrun & Hix & Hrec & _).
  exists st'. exact (conj Hrun (conj Hix Hrec)).
Defined.

(** ** Adding *)

(** X2: [add] returns the number of records held before the call; the new
    record is appended with that id and the given fields, the vector is
    appended to the index, and both files hold the new pair when it
    returns. *)
Theorem add_appends `{Numpy} (st : state) (tp ct src : string)
    (embeddings : option faiss.vec) (now : string) :
  allocated st →
  length (default (embedding_of ct) embeddings) = faiss.d (index st) →
  ∃ st', VectorDB.add tp ct src embeddings now st
         = (Ok (Z.of_nat (length (records st))), st') ∧
         records st' = records st ++
           [{| id := Z.of_nat (length (records st)); topic := tp;
               content := ct; source := src; date := now; score := None |}] ∧
         faiss.xb (index st')
         = faiss.xb (index st) ++ [default (embedding_of ct) embeddings] ∧
         files st' = {| index_file := Some (index st');
                        metadata_file := Some (records st') |} ∧
         allocated st'.
Proof.
  intros Hal He. eexists. split.
  { rewrite add_run by done. by rewrite length_records. }
  unfold records at 1 4. simpl. rewrite records_snoc by done.
  rewrite length_records.
  split_and!; try done.
  unfold allocated. simpl. rewrite length_app. apply Forall_app. split.
  - eapply Forall_impl; [exact Hal|]. simpl. intros; lia.
  - apply Forall_singleton. simpl. lia.
Qed.

(** Witness of X2: the second note of the scenario. *)
Lemma add_appends_witness :
  allocated Scenario.cats ∧
  length (default (embedding_of "Dogs are mammals. They bark.") None)
  = faiss.d (index Scenario.cats) ∧
  ∃ st', VectorDB.add "Dogs" "Dogs are mammals. They bark." "manual" None
           "2024-01-01 10:05:00" Scenario.cats
         = (Ok (Z.of_nat (length (records Scenario.cats))), st') ∧
         length (records st') = 2.
Proof.
  assert (Hal : allocated Scenario.cats) by (vm_compute; repeat constructor).
  assert (He : length (default (embedding_of "Dogs are mammals. They bark.") None)
               = faiss.d (index Scenario.cats)) by (vm_compute; reflexivity).
  split; [exact Hal|]. split; [exact He|].
  destruct (add_appends Scenario.cats "Dogs" "Dogs are mammals. They bark."
              "manual" None "2024-01-01 10:05:00" Hal He)
    as (st' & Hrun & Hrec & _).
  exists st'. split; [exact Hrun|]. rewrite Hrec. vm_compute. reflexivity.
Defined.

(** X3: [add] with a pre-computed vector whose length is not the dimension
    of the index raises, and nothing has changed: no record, no vector, no
    object, no file. *)
Theorem add_wrong_dimension `{Numpy} (st : state) (tp ct src : string)
    (v : faiss.vec) (now : string) :
  length v ≠ faiss.d (index st) →
  VectorDB.add tp ct src (Some v) now st = (Raise AssertionError, st).
Proof.
  intros Hv. unfold VectorDB.add, VectorDB.index_add. unfold_monad.
  unfold faiss.add. case_decide; [done|reflexivity].
Qed.

(** Witness of X3: a vector of length 1 offered to the scenario store. *)
Lemma add_wrong_dimension_witness :
  length [1%Q] ≠ faiss.d (index Scenario.cats) ∧
  (VectorDB.add "Birds" "Birds fly." "manual" (Some [1%Q]) "2024-01-03"
     Scenario.cats).1 = Raise AssertionError.
Proof.
  assert (Hne : length [1%Q] ≠ faiss.d (index Scenario.cats))
    by (vm_compute; discriminate).
  split; [exact Hne|].
  exact (f_equal fst (add_wrong_dimension Scenario.cats "Birds" "Birds fly."
                        "manual" [1%Q] "2024-01-03" Hne)).
Defined.


(** ** Browsing by topic *)

Section topic_facts.
Context `{Numpy}.

Lemma with_topic_deref h t (ls : list loc) :
  deref h <$> filter (λ l, topic (deref h l) = t) ls
  = with_topic t (deref h <$> ls).
Proof.
  unfold with_topic. induction ls as [|l ls IH]; [done|].
  rewrite fmap_cons, !filter_cons.
  case_decide; [rewrite fmap_cons|]; by rewrite IH.
Qed.

Lemma get_by_topic_run st t :
  VectorDB.get_by_topic t st
  = (Ok (filter (λ l, topic (deref (heap st) l) = t) (metadata st)), st).
Proof. reflexivity. Qed.

Lemma get_all_topics_run st :
  VectorDB.get_all_topics st
  = (Ok (elements (list_to_set (topic <$> records st) : gset string)), st).
Proof.
  unfold VectorDB.get_all_topics, records. unfold_monad.
  by rewrite <- list_fmap_compose.
Qed.

Lemma with_topic_renumber i t rs :
  with_id 0 <$> with_topic t (renumber i rs) = with_id 0 <$> with_topic t rs.
Proof.
  unfold with_topic. revert i. induction rs as [|r rs IH]; intros i; [done|].
  rewrite renumber_cons, !filter_cons. simpl.
  case_decide; [rewrite !fmap_cons|]; by rewrite IH.
Qed.

Lemma with_topic_survivors t t' rs :
  t' ≠ t → with_topic t' (survivors t rs) = with_topic t' rs.
Proof.
  intros Hne. unfold with_topic, survivors.
  induction rs as [|r rs IH]; [done|].
  rewrite !filter_cons. destruct (decide (topic r = t')) as [Heq|Hneq].
  - rewrite decide_True by congruence. rewrite filter_cons.
    rewrite decide_True by done. by rewrite IH.
  - case_decide; [rewrite filter_cons, decide_False by done|]; by rewrite IH.
Qed.

Lemma with_topic_survivors_same t rs : with_topic t (survivors t rs) = [].
Proof.
  unfold with_topic, survivors. apply filter_none.
  apply Forall_forall. by intros r [? _]%list_elem_of_filter.
Qed.

Lemma with_topic_nil_iff t rs :
  with_topic t rs = [] ↔ Forall (λ r, topic r ≠ t) rs.
Proof.
  unfold with_topic. split.
  - intros Hnil. apply Forall_forall. intros r Hr Ht.
    assert (Hin : r ∈ filter (λ r, topic r = t) rs)
      by by apply list_elem_of_filter.
    rewrite Hnil in Hin. by apply elem_of_nil in Hin.
  - apply filter_none.
Qed.

Lemma topics_elem (rs : list item) t :
  t ∈ elements (list_to_set (topic <$> rs) : gset string)
  ↔ ∃ r, r ∈ rs ∧ topic r = t.
Proof.
  rewrite elem_of_elements, elem_of_list_to_set, list_elem_of_fmap.
  split; [intros (r & -> & Hr) | intros (r & Hr & <-)]; eauto.
Qed.

(** The records after [delete_by_topic] has returned. *)
Lemma delete_records st t b st' :
  allocated st →
  VectorDB.delete_by_topic t st = (Ok b, st') →
  (b = false ∧ st' = st ∧ Forall (λ r, topic r ≠ t) (records st)) ∨
  (b = true ∧ records st' = renumber 0 (survivors t (records st))).
Proof.
  intros Hal Hrun.
  destruct (decide (Forall (λ r, topic r ≠ t) (records st))) as [Hall|Hsome].
  - left. rewrite delete_absent_run in Hrun by done.
    by injection Hrun as <- <-.
  - right. rewrite delete_present_run in Hrun by done.
    injection Hrun as <- <-. split; [done|].
    unfold records at 1. simpl. apply fmap_deref_renumber.
Qed.

Lemma delete_removes_topic st t b st' :
  allocated st →
  VectorDB.delete_by_topic t st = (Ok b, st') →
  Forall (λ r, topic r ≠ t) (records st').
Proof.
  intros Hal Hrun.
  destruct (delete_records st t b st' Hal Hrun)
    as [(_ & -> & Hall)|(_ & ->)]; [done|].
  apply with_topic_nil_iff. apply (fmap_nil_inv (with_id 0)).
  by rewrite with_topic_renumber, with_topic_survivors_same.
Qed.

End topic_facts.

(** X4: [get_by_topic] returns, in their order, the stored objects whose
    topic is exactly the argument: references into [self.metadata], not
    copies.  The state is untouched, and the list is empty when no record
    has the topic. *)
Theorem get_by_topic_exact `{Numpy} (st : state) (t : string) :
  ∃ ls, VectorDB.get_by_topic t st = (Ok ls, st) ∧
        deref (heap st) <$> ls = with_topic t (records st) ∧
        ls `sublist_of` metadata st ∧
        (ls = [] ↔ ∀ r, r ∈ records st → topic r ≠ t).
Proof.
  eexists. split; [apply get_by_topic_run|].
  assert (Hv : deref (heap st) <$>
                 filter (λ l, topic (deref (heap st) l) = t) (metadata st)
               = with_topic t (records st)) by apply with_topic_deref.
  split_and!; [done|apply sublist_filter|].
  rewrite <- Forall_forall, <- with_topic_nil_iff, <- Hv.
  split; [by intros ->|]. by intros ?%fmap_nil_inv.
Qed.

(** X5: [get_all_topics] lists each topic of the store once: it has no
    duplicates, and a topic is listed exactly when some record has it. *)
Theorem get_all_topics_distinct `{Numpy} (st : state) :
  ∃ ts, VectorDB.get_all_topics st = (Ok ts, st) ∧
        NoDup ts ∧
        ∀ t, t ∈ ts ↔ ∃ r, r ∈ records st ∧ topic r = t.
Proof.
  eexists. split; [apply get_all_topics_run|]. split.
  - apply NoDup_elements.
  - intros t. apply topics_elem.
Qed.

(** ** Deleting, then browsing *)

(** X6: once [delete_by_topic t] has returned, the topic is gone:
    [get_by_topic t] returns nothing, [get_all_topics] does not list [t],
    and deleting [t] again returns [False] and changes nothing. *)
Theorem delete_then_browse `{Numpy} (st : state) (t : string) (b : bool)
    (st' : state) :
  allocated st →
  VectorDB.delete_by_topic t st = (Ok b, st') →
  VectorDB.get_by_topic t st' = (Ok [], st') ∧
  (∃ ts, VectorDB.get_all_topics st' = (Ok ts, st') ∧ t ∉ ts) ∧
  VectorDB.delete_by_topic t st' = (Ok false, st').
Proof.
  intros Hal Hrun.
  pose proof (delete_removes_topic st t b st' Hal Hrun) as Hgone.
  split_and!.
  - rewrite get_by_topic_run. f_equal. f_equal.
    apply (fmap_nil_inv (deref (heap st'))).
    rewrite with_topic_deref. by apply with_topic_nil_iff.
  - eexists. split; [apply get_all_topics_run|].
    intros (r & Hr & Ht)%topics_elem.
    by eapply Forall_forall in Hgone.
  - by apply delete_absent_run.
Qed.

(** Witness of X6: deleting the topic Cats from the scenario store. *)
Lemma delete_then_browse_witness :
  allocated Scenario.cats_dogs ∧
  VectorDB.delete_by_topic "Cats" Scenario.cats_dogs
  = (Ok true, Scenario.dogs) ∧
  VectorDB.get_by_topic "Cats" Scenario.dogs = (Ok [], Scenario.dogs) ∧
  VectorDB.delete_by_topic "Cats" Scenario.dogs = (Ok false, Scenario.dogs).
Proof.
  assert (Hrun : VectorDB.delete_by_topic "Cats" Scenario.cats_dogs
                 = (Ok true, Scenario.dogs)).
  { refine (run_after (VectorDB.delete_by_topic "Cats") Scenario.cats_dogs
              true _). vm_compute. reflexivity. }
  split; [exact cats_dogs_allocated|]. split; [exact Hrun|].
  pose proof (delete_then_browse Scenario.cats_dogs "Cats" true Scenario.dogs
                cats_dogs_allocated Hrun) as (Hget & _ & Hdel).
  exact (conj Hget Hdel).
Defined.

(** X7: deleting a topic leaves the other topics as they were: for every
    other topic, [get_by_topic] finds the same records in the same order
    after the deletion as before it, their ids apart. *)
Theorem delete_keeps_other_topics `{Numpy} (st : state) (t t' : string)
    (b : bool) (st' : state) :
  allocated st →
  t' ≠ t →
  VectorDB.delete_by_topic t st = (Ok b, st') →
  ∃ ls ls', VectorDB.get_by_topic t' st = (Ok ls, st) ∧
            VectorDB.get_by_topic t' st' = (Ok ls', st') ∧
            with_id 0 <$> (deref (heap st') <$> ls')
            = with_id 0 <$> (deref (heap st) <$> ls).
Proof.
  intros Hal Hne Hrun. eexists _, _.
  split; [apply get_by_topic_run|]. split; [apply get_by_topic_run|].
  rewrite !with_topic_deref. fold (records st) (records st').
  destruct (delete_records st t b st' Hal Hrun)
    as [(_ & -> & _)|(_ & ->)]; [done|].
  by rewrite with_topic_renumber, with_topic_survivors.
Qed.

(** Witness of X7: the note on dogs survives the deletion of Cats. *)
Lemma delete_keeps_other_topics_witness :
  allocated Scenario.cats_dogs ∧ "Dogs" ≠ "Cats" ∧
  VectorDB.delete_by_topic "Cats" Scenario.cats_dogs
  = (Ok true, Scenario.dogs) ∧
  ∃ ls ls', VectorDB.get_by_topic "Dogs" Scenario.cats_dogs
            = (Ok ls, Scenario.cats_dogs) ∧
            VectorDB.get_by_topic "Dogs" Scenario.dogs = (Ok ls', Scenario.dogs) ∧
            with_id 0 <$> (deref (heap Scenario.dogs) <$> ls')
            = with_id 0 <$> (deref (heap Scenario.cats_dogs) <$> ls).
Proof.
  assert (Hrun : VectorDB.delete_by_topic "Cats" Scenario.cats_dogs
                 = (Ok true, Scenario.dogs)).
  { refine (run_after (VectorDB.delete_by_topic "Cats") Scenario.cats_dogs
              true _). vm_compute. reflexivity. }
  assert (Hne : "Dogs" ≠ "Cats") by discriminate.
  split; [exact cats_dogs_allocated|]. split; [exact Hne|].
  split; [exact Hrun|].
  exact (delete_keeps_other_topics Scenario.cats_dogs "Cats" "Dogs" true
           Scenario.dogs cats_dogs_allocated Hne Hrun).
Defined.


(** ** What [search] finds *)

Section nearest_facts.
Context `{Numpy}.

Lemma L2sqr_sum_diag x :
  (foldr Qplus 0 (zip_with faiss.sqdiff x x) == 0)%Q.
Proof.
  induction x as [|a x IH]; simpl; [reflexivity|].
  rewrite IH. unfold faiss.sqdiff. ring.
Qed.

(** A vector is at distance 0 from itself, which the index can return. *)
Lemma fvec_L2sqr_diag x :
  ∃ s, faiss.fvec_L2sqr x x = faiss.finite s ∧ (s == 0)%Q ∧
       (s < faiss.FLT_MAX)%Q.
Proof.
  pose proof (L2sqr_sum_diag x) as Hz.
  assert (Hmax : (0 < faiss.FLT_MAX)%Q) by reflexivity.
  unfold faiss.fvec_L2sqr.
  destruct (Qlt_le_dec _ _) as [Hlt|Hle].
  - rewrite Hz in Hlt. exfalso. apply (Qlt_irrefl 0).
    by eapply Qlt_trans.
  - eexists. split_and!; [done|done|]. by rewrite Hz.
Qed.

Lemma scan_labels_NoDup ix x : NoDup (faiss.scan ix x).*2.
Proof.
  apply NoDup_alt. intros i j l. unfold faiss.scan.
  rewrite !list_lookup_fmap, !list_lookup_imap.
  destruct (faiss.xb ix !! i), (faiss.xb ix !! j); simpl; try done.
  intros [= <-] [= Hij]. lia.
Qed.

Lemma candidates_labels_sublist (l : list (faiss.float32 * Z)) :
  (omap faiss.admitted l).*2 `sublist_of` l.*2.
Proof.
  induction l as [|p l IH]; [done|]. cbn [omap list_omap].
  destruct (faiss.admitted p) as [q|] eqn:Hq.
  - apply admitted_Some in Hq as (_ & _ & Hl).
    rewrite !fmap_cons, Hl. by apply sublist_skip.
  - rewrite fmap_cons. by apply sublist_cons.
Qed.

Lemma sorted_scan_labels_NoDup ix x :
  NoDup (merge_sort faiss.by_distance
           (omap faiss.admitted (faiss.scan ix x))).*2.
Proof.
  rewrite merge_sort_Permutation.
  eapply sublist_NoDup; [apply scan_labels_NoDup|].
  apply candidates_labels_sublist.
Qed.

(** No stored vector is reported twice. *)
Lemma hits_labels_NoDup st query top_k :
  NoDup (hits st query top_k).*2.
Proof.
  destruct (decide (faiss.d (index st) = 64)) as [Hd|Hd].
  - rewrite hits_knn by done. unfold faiss.knn.
    eapply sublist_NoDup; [apply sorted_scan_labels_NoDup|].
    apply fmap_sublist. etrans; [apply sublist_filter|apply sublist_take].
  - unfold hits, neighbours, faiss.search.
    rewrite length_embedding_of. rewrite decide_False by done. constructor.
Qed.


(** The first of the [k ≥ 1] nearest is at least as near as every stored
    vector that the index can return. *)
Lemma knn_head ix x k v s :
  0 < k → v ∈ faiss.xb ix →
  faiss.fvec_L2sqr x v = faiss.finite s → (s < faiss.FLT_MAX)%Q →
  ∃ p ps, faiss.knn ix x k = p :: ps ∧ (p.1 <= s)%Q.
Proof.
  intros Hk [j Hj]%list_elem_of_lookup Hv Hs. unfold faiss.knn.
  set (L := merge_sort faiss.by_distance
              (omap faiss.admitted (faiss.scan ix x))).
  assert (Hq : (s, Z.of_nat j) ∈ L).
  { unfold L. rewrite merge_sort_Permutation.
    apply candidates_elem. exists j, v. done. }
  assert (Hsorted : StronglySorted faiss.by_distance L).
  { apply StronglySorted_merge_sort; apply _. }
  destruct L as [|p L']; [by apply elem_of_nil in Hq|].
  destruct k as [|k]; [lia|]. exists p, (take k L'). split; [done|].
  apply StronglySorted_cons in Hsorted as [Hall _].
  apply elem_of_cons in Hq as [<-|Hq]; [apply Qle_refl|].
  rewrite Forall_forall in Hall. exact (Hall _ Hq).
Qed.

End nearest_facts.



(** X10: the results of one [search] stand for pairwise distinct records:
    no position of the store is returned twice, and there are never more
    results than [top_k]. *)
Theorem search_distinct `{Numpy} (st : state) (query : string) (top_k : Z)
    (ls : list loc) (st' : state) :
  allocated st →
  VectorDB.search query top_k st = (Ok ls, st') →
  let hs := hits st query top_k in
  deref (heap st') <$> ls = scored st (normaliser st query top_k) <$> hs ∧
  NoDup hs.*2 ∧
  NoDup ls ∧
  (metadata st ≠ [] → (Z.of_nat (length ls) ≤ top_k)%Z).
Proof.
  intros Hal Hs hs. split; [by apply search_results|].
  split; [apply hits_labels_NoDup|].
  destruct (search_Ok_inv _ _ _ _ _ Hal Hs)
    as [(Hmd & -> & _)|(Hmd & Hk & Hd & -> & _)].
  - split; [constructor|done].
  - split; [apply NoDup_seq|]. intros _. rewrite length_seq.
    pose proof (length_hits_le st query top_k Hd). unfold requested in *. lia.
Qed.

(** Witness of X10: the scenario search. *)
Lemma search_distinct_witness :
  allocated Scenario.cats_dogs ∧
  VectorDB.search "mammals" 2 Scenario.cats_dogs
  = (Ok [2; 3], Scenario.searched) ∧
  NoDup (hits Scenario.cats_dogs "mammals" 2).*2.
Proof.
  split; [exact cats_dogs_allocated|]. split; [exact cats_dogs_search|].
  exact (proj1 (proj2 (search_distinct Scenario.cats_dogs "mammals" 2 [2; 3]
                         Scenario.searched cats_dogs_allocated
                         cats_dogs_search))).
Defined.


(** ** One neighbour *)

(** X11: when one neighbour is requested (because [top_k] is 1 or the
    store has one record), every returned record has score 0, whatever the
    query and however near the record is: its distance is the normaliser. *)
Theorem single_neighbour_scores_zero `{Numpy} (st : state) (query : string)
    (top_k : Z) (ls : list loc) (st' : state) :
  allocated st →
  requested st top_k = 1%Z →
  VectorDB.search query top_k st = (Ok ls, st') →
  Forall (λ r, ∃ s, score r = Some s ∧ (s == 0)%Q) (deref (heap st') <$> ls).
Proof.
  intros Hal Hone Hs. rewrite (search_results _ _ _ _ _ Hal Hs).
  destruct (search_Ok_inv _ _ _ _ _ Hal Hs)
    as [(_ & _ & _ & -> & _)|(_ & _ & Hd & _)]; [constructor|].
  apply Forall_fmap, Forall_forall. intros p Hp. simpl.
  eexists. split; [reflexivity|].
  assert (Hn : ∃ q, neighbours st query top_k = [q]).
  { rewrite (neighbours_knn st query top_k Hd) by (rewrite Hone; done).
    rewrite Hone. simpl.
    change (Z.to_nat 1) with 1.
    assert (Hlen : length (faiss.knn (index st) (embedding_of query) 1) ≤ 1).
    { pose proof (length_knn_le (index st) (embedding_of query) 1). lia. }
    destruct (faiss.knn (index st) (embedding_of query) 1) as [|q [|q' nn]];
      simpl in *; [eauto|eauto|lia]. }
  destruct Hn as [q Hn].
  assert (Hpq : p = q).
  { apply hits_subseteq in Hp. rewrite Hn in Hp.
    by apply list_elem_of_singleton in Hp. }
  unfold normaliser. rewrite Hn, Hpq. simpl.
  destruct (Qlt_le_dec 0 q.1) as [Hpos|Hle].
  - by apply similarity_at_max.
  - by rewrite similarity_nonpos.
Qed.

(** Witness of X11: the scenario store searched with [top_k = 1]. *)
Lemma single_neighbour_scores_zero_witness :
  allocated Scenario.cats_dogs ∧
  requested Scenario.cats_dogs 1 = 1%Z ∧
  VectorDB.search "mammals" 1 Scenario.cats_dogs
  = (Ok [2], after (VectorDB.search "mammals" 1) Scenario.cats_dogs) ∧
  Forall (λ r, ∃ s, score r = Some s ∧ (s == 0)%Q)
    (deref (heap (after (VectorDB.search "mammals" 1) Scenario.cats_dogs))
       <$> [2]).
Proof.
  assert (Hone : requested Scenario.cats_dogs 1 = 1%Z)
    by (vm_compute; reflexivity).
  assert (Hrun : VectorDB.search "mammals" 1 Scenario.cats_dogs
                 = (Ok [2], after (VectorDB.search "mammals" 1)
                              Scenario.cats_dogs)).
  { refine (run_after (VectorDB.search "mammals" 1) Scenario.cats_dogs [2] _).
    vm_compute. reflexivity. }
  split; [exact cats_dogs_allocated|]. split; [exact Hone|].
  split; [exact Hrun|].
  exact (single_neighbour_scores_zero Scenario.cats_dogs "mammals" 1 [2] _
           cats_dogs_allocated Hone Hrun).
Defined.

(** ** Vectors and records stay aligned *)

Section alignment_facts.
Context `{Numpy}.

Lemma load_aligned st st' :
  files_aligned (files st) →
  VectorDB.__init__ st = (Ok tt, st') →
  allocated st' ∧ aligned st' ∧ files_aligned (files st').
Proof.
  intros Hfa Hrun. unfold files_aligned in Hfa.
  destruct (index_file (files st)) as [ix|] eqn:Hix;
    [destruct (metadata_file (files st)) as [rs|] eqn:Hrs|].
  - rewrite (init_load_run st ix rs) in Hrun by done. injection Hrun as <-.
    unfold allocated, aligned, files_aligned, records. simpl.
    rewrite fmap_deref_seq, Hix, Hrs.
    split_and!; [apply Forall_seq_lt|done|done].
  - rewrite init_create_run in Hrun by (right; done). injection Hrun as <-.
    unfold allocated, aligned, files_aligned, records. simpl.
    rewrite Hix, Hrs. split_and!; done.
  - rewrite init_create_run in Hrun by (left; done). injection Hrun as <-.
    unfold allocated, aligned, files_aligned, records. simpl.
    rewrite Hix. split_and!; done.
Qed.

Lemma add_aligned st tp ct src now idx st' :
  allocated st → aligned st →
  VectorDB.add tp ct src None now st = (Ok idx, st') →
  allocated st' ∧ aligned st' ∧ files_aligned (files st').
Proof.
  intros Hal Hali Hrun.
  pose proof (add_Ok_inv _ _ _ _ _ _ _ _ Hrun) as He.
  rewrite add_run in Hrun by done. injection Hrun as <- <-.
  unfold allocated, aligned, files_aligned, records. simpl.
  rewrite records_snoc by done. rewrite fmap_app. simpl.
  unfold aligned in Hali. rewrite Hali.
  split_and!; [|done|done].
  rewrite length_app. apply Forall_app. split.
  - eapply Forall_impl; [exact Hal|]. simpl. intros; lia.
  - apply Forall_singleton. simpl. lia.
Qed.

Lemma delete_aligned st t b st' :
  allocated st → aligned st → files_aligned (files st) →
  VectorDB.delete_by_topic t st = (Ok b, st') →
  allocated st' ∧ aligned st' ∧ files_aligned (files st').
Proof.
  intros Hal Hali Hfa Hrun.
  destruct (decide (Forall (λ r, topic r ≠ t) (records st))) as [Hall|Hsome].
  - rewrite delete_absent_run in Hrun by done. by injection Hrun as <- <-.
  - rewrite delete_present_run in Hrun by done. injection Hrun as <- <-.
    set (rs := survivors t (records st)).
    unfold allocated, aligned, files_aligned, records. simpl.
    rewrite fmap_deref_renumber.
    assert (Hc : embedding_of ∘ content <$> renumber 0 rs
                 = embedding_of ∘ content <$> rs).
    { unfold renumber. rewrite fmap_imap. simpl.
      rewrite <- (imap_const (embedding_of ∘ content) rs).
      by apply imap_ext. }
    rewrite Hc. split_and!; [|done|done].
    rewrite <- (length_renumber 0 rs). apply Forall_seq_lt.
Qed.

End alignment_facts.

(** X12: position [i] of the index holds the embedding of the content of
    record [i], and this is kept: it holds after a load when the persisted
    pair has it, and after [add_to_vector_db] (which always embeds the
    content) and [delete_by_topic] (which re-embeds the survivors) when the
    store and the persisted pair had it. *)
Theorem alignment_preserved `{Numpy} (o : op) (st st' : state) :
  (∀ t c s e now, o = Add t c s e now → e = None) →
  files_aligned (files st) →
  o = Load ∨ (allocated st ∧ aligned st) →
  committed o st st' →
  allocated st' ∧ aligned st' ∧ files_aligned (files st').
Proof.
  intros Hnone Hfa Hpre Hrun. destruct o as [|tp ct src e now|t].
  - by apply (load_aligned st).
  - destruct Hpre as [|[Hal Hali]]; [done|]. destruct Hrun as [idx Hrun].
    rewrite (Hnone tp ct src e now eq_refl) in Hrun. by eapply add_aligned.
  - destruct Hpre as [|[Hal Hali]]; [done|]. destruct Hrun as [b Hrun].
    by eapply delete_aligned.
Qed.

(** Witness of X12: the second note of the scenario, added through
    [add_to_vector_db]. *)
Lemma alignment_preserved_witness :
  files_aligned (files Scenario.cats) ∧
  allocated Scenario.cats ∧ aligned Scenario.cats ∧
  add_to_vector_db "Dogs" "Dogs are mammals. They bark." "manual" "default"
    "2024-01-01 10:05:00" Scenario.cats = (Ok 1%Z, Scenario.cats_dogs) ∧
  aligned Scenario.cats_dogs.
Proof.
  assert (Hfa : files_aligned (files Scenario.cats))
    by (vm_compute; reflexivity).
  assert (Hal : allocated Scenario.cats) by (vm_compute; repeat constructor).
  assert (Hali : aligned Scenario.cats) by (vm_compute; reflexivity).
  assert (Hrun : add_to_vector_db "Dogs" "Dogs are mammals. They bark."
                   "manual" "default" "2024-01-01 10:05:00" Scenario.cats
                 = (Ok 1%Z, Scenario.cats_dogs)).
  { refine (run_after (VectorDB.add _ _ _ _ _) Scenario.cats 1%Z _).
    vm_compute. reflexivity. }
  split; [exact Hfa|]. split; [exact Hal|]. split; [exact Hali|].
  split; [exact Hrun|].
  refine (proj1 (proj2 (alignment_preserved
            (Add "Dogs" "Dogs are mammals. They bark." "manual" None
               "2024-01-01 10:05:00") Scenario.cats Scenario.cats_dogs
            _ Hfa (or_intror (conj Hal Hali)) (ex_intro _ 1%Z Hrun)))).
  intros t c s e now [= _ _ _ <- _]. reflexivity.
Defined.


(** ** Searching for a stored text *)

(** X13: in a store whose vectors are aligned with its records, a search
    for the exact content of a stored record puts a record at distance 0
    first; its score is 1 unless every returned distance is 0. *)
Theorem exact_content_ranks_first `{Numpy} (st : state) (r : item)
    (top_k : Z) (ls : list loc) (st' : state) :
  well_formed st →
  length (metadata st) = faiss.ntotal (index st) →
  aligned st →
  r ∈ records st →
  VectorDB.search (content r) top_k st = (Ok ls, st') →
  let m := normaliser st (content r) top_k in
  ∃ p ps l ls',
    hits st (content r) top_k = p :: ps ∧ ls = l :: ls' ∧
    (p.1 == 0)%Q ∧
    score (deref (heap st') l) = Some (VectorDB.similarity m p.1) ∧
    ((0 < m)%Q → (VectorDB.similarity m p.1 == 1)%Q).
Proof.
  intros [Hd Hal] Hcount Hali Hr Hs m.
  assert (Hmd : metadata st ≠ []).
  { intros Hmd. unfold records in Hr. rewrite Hmd in Hr.
    by apply elem_of_nil in Hr. }
  destruct (search_Ok_inv _ _ _ _ _ Hal Hs)
    as [(? & _)|(_ & Hk & _ & Hls & _)]; [done|].
  pose proof (search_results _ _ _ _ _ Hal Hs) as Hres.
  pose proof (hits_all_knn st (content r) top_k Hd Hcount) as Hknn.
  assert (Hv : embedding_of (content r) ∈ faiss.xb (index st)).
  { unfold aligned in Hali. rewrite Hali. apply list_elem_of_fmap.
    exists r. done. }
  assert (Hreq : 0 < Z.to_nat (requested st top_k)).
  { unfold requested. destruct (metadata st); [done|]. simpl length. lia. }
  destruct (fvec_L2sqr_diag (embedding_of (content r)))
    as (s & Hself & Hs0 & Hsmax).
  destruct (knn_head (index st) (embedding_of (content r))
              (Z.to_nat (requested st top_k)) _ s Hreq Hv Hself Hsmax)
    as (p & ps & Hhead & Hle).
  assert (Hzero : (p.1 == 0)%Q).
  { apply Qle_antisym.
    - by rewrite <- Hs0.
    - assert (Hp : p ∈ faiss.knn (index st) (embedding_of (content r))
                         (Z.to_nat (requested st top_k)))
        by (rewrite Hhead; left).
      apply knn_elem in Hp as (i & w & _ & Hw & _).
      by eapply fvec_L2sqr_nonneg. }
  rewrite Hknn, Hhead in Hls. simpl in Hls.
  rewrite Hknn, Hhead, Hls in Hres. simpl in Hres. injection Hres as Hl _.
  exists p, ps, (length (heap st)), (seq (S (length (heap st))) (length ps)).
  split_and!; [by rewrite Hknn|done|done|by rewrite Hl|].
  intros Hm. rewrite similarity_pos by done. rewrite Hzero.
  unfold Qdiv. ring.
Qed.

(** Witness of X13: the scenario store searched for the text of the note
    on dogs. *)
Lemma exact_content_ranks_first_witness :
  well_formed Scenario.cats_dogs ∧
  length (metadata Scenario.cats_dogs)
  = faiss.ntotal (index Scenario.cats_dogs) ∧
  aligned Scenario.cats_dogs ∧
  records Scenario.cats_dogs !!! 1 ∈ records Scenario.cats_dogs ∧
  VectorDB.search (content (records Scenario.cats_dogs !!! 1)) 2
    Scenario.cats_dogs
  = (Ok [2; 3],
     after (VectorDB.search (content (records Scenario.cats_dogs !!! 1)) 2)
       Scenario.cats_dogs) ∧
  ∃ p ps, hits Scenario.cats_dogs
            (content (records Scenario.cats_dogs !!! 1)) 2 = p :: ps ∧
          (p.1 == 0)%Q.
Proof.
  assert (Hali : aligned Scenario.cats_dogs) by (vm_compute; reflexivity).
  assert (Hr : records Scenario.cats_dogs !!! 1 ∈ records Scenario.cats_dogs).
  { vm_compute. right. left. }
  assert (Hrun : VectorDB.search (content (records Scenario.cats_dogs !!! 1)) 2
                   Scenario.cats_dogs
                 = (Ok [2; 3],
                    after (VectorDB.search
                             (content (records Scenario.cats_dogs !!! 1)) 2)
                      Scenario.cats_dogs)).
  { refine (run_after (VectorDB.search _ 2) Scenario.cats_dogs [2; 3] _).
    vm_compute. reflexivity. }
  split; [exact cats_dogs_well_formed|]. split; [exact cats_dogs_count|].
  split; [exact Hali|]. split; [exact Hr|]. split; [exact Hrun|].
  destruct (exact_content_ranks_first Scenario.cats_dogs
              (records Scenario.cats_dogs !!! 1) 2 [2; 3] _
              cats_dogs_well_formed cats_dogs_count Hali Hr Hrun)
    as (p & ps & _ & _ & Hhits & _ & Hzero & _).
  exists p, ps. exact (conj Hhits Hzero).
Defined.

(** ** Deleting works on copies *)

(** X8: [delete_by_topic] never writes into an object that existed: what
    [get_by_topic] or [search] returned before keeps its fields, the old
    ids included.  When it returns [True], the store refers to new objects
    only, and both files hold the rebuilt pair. *)
Theorem delete_by_topic_copies `{Numpy} (st : state) (t : string) (b : bool)
    (st' : state) :
  allocated st →
  VectorDB.delete_by_topic t st = (Ok b, st') →
  (∀ l r, heap st !! l = Some r → heap st' !! l = Some r) ∧
  (b = true →
   Forall (λ l, heap st !! l = None) (metadata st') ∧
   files st' = {| index_file := Some (index st');
                  metadata_file := Some (records st') |}).
Proof.
  intros Hal Hrun.
  destruct (decide (Forall (λ r, topic r ≠ t) (records st))) as [Hall|Hsome].
  - rewrite delete_absent_run in Hrun by done. injection Hrun as <- <-.
    split; [done|]. discriminate.
  - rewrite delete_present_run in Hrun by done. injection Hrun as <- <-.
    split.
    + intros l r Hl. simpl. by apply lookup_app_l_Some.
    + intros _. simpl. split.
      * apply Forall_seq. intros j Hj. apply lookup_ge_None. lia.
      * unfold records. simpl. by rewrite fmap_deref_renumber.
Qed.

(** Witness of X8: deleting the topic Cats from the scenario store. *)
Lemma delete_by_topic_copies_witness :
  allocated Scenario.cats_dogs ∧
  VectorDB.delete_by_topic "Cats" Scenario.cats_dogs
  = (Ok true, Scenario.dogs) ∧
  ∀ l r, heap Scenario.cats_dogs !! l = Some r →
         heap Scenario.dogs !! l = Some r.
Proof.
  assert (Hrun : VectorDB.delete_by_topic "Cats" Scenario.cats_dogs
                 = (Ok true, Scenario.dogs)).
  { refine (run_after (VectorDB.delete_by_topic "Cats") Scenario.cats_dogs
              true _). vm_compute. reflexivity. }
  split; [exact cats_dogs_allocated|]. split; [exact Hrun|].
  exact (proj1 (delete_by_topic_copies Scenario.cats_dogs "Cats" true
                  Scenario.dogs cats_dogs_allocated Hrun)).
Defined.


(** * Properties of [utils/summarizer.py] *)

(** ** Sentences and summaries *)

Section summary_facts.
Context `{PyStr}.

Lemma py_last_elem (xs : list string) : xs ≠ [] → py_last xs ∈ xs.
Proof.
  intros Hne. unfold py_last.
  destruct (last xs) as [x|] eqn:Hlast.
  - simpl. by eapply last_Some_elem_of.
  - exfalso. apply Hne. by apply last_None.
Qed.

Lemma lookup_total_elem (xs : list string) i : i < length xs → xs !!! i ∈ xs.
Proof. apply list_elem_of_lookup_total_2. Qed.

Lemma sentences_end_with_stop text s :
  s ∈ sentences_of text → ∃ s', s' ≠ EmptyString ∧ s = s' +:+ ".".
Proof.
  unfold sentences_of. intros (s' & -> & Hs')%list_elem_of_fmap.
  apply list_elem_of_filter in Hs' as [Hne _]. eauto.
Qed.

End summary_facts.

(** X14: [summarize_text] is extractive.  A text of fewer than 100 words,
    or of at most three sentences, is returned as it is.  Any other result
    is two to four sentences of the text joined by single spaces, the first
    sentence of the text first. *)
Theorem summarize_text_extractive `{PyStr} (text : string)
    (max_length min_length : Z) :
  let sentences := sentences_of text in
  (word_count text < 100 ∨ length sentences ≤ 3 →
   summarize_text text max_length min_length = text) ∧
  (¬ (word_count text < 100 ∨ length sentences ≤ 3) →
   ∃ chosen, summarize_text text max_length min_length = join " " chosen ∧
             2 ≤ length chosen ≤ 4 ∧
             head chosen = Some (sentences !!! 0) ∧
             ∀ s, s ∈ chosen → s ∈ sentences).
Proof.
  intros sentences. unfold summarize_text. fold sentences. split.
  - intros [Hw|Hs].
    + by rewrite decide_True.
    + case_decide; [done|]. by rewrite decide_True.
  - intros Hlong.
    rewrite decide_False by (intros ?; apply Hlong; by left).
    rewrite decide_False by (intros ?; apply Hlong; by right).
    assert (Hlen : 3 < length sentences).
    { destruct (decide (length sentences ≤ 3)); [|lia].
      exfalso. apply Hlong. by right. }
    assert (H0 : sentences !!! 0 ∈ sentences)
      by (apply lookup_total_elem; lia).
    assert (Hmid : sentences !!! (length sentences `div` 2) ∈ sentences).
    { apply lookup_total_elem. apply Nat.div_lt; lia. }
    assert (Hq : sentences !!! (length sentences `div` 4) ∈ sentences).
    { apply lookup_total_elem. apply Nat.div_lt; lia. }
    assert (Hlast : py_last sentences ∈ sentences).
    { apply py_last_elem. intros Hnil. rewrite Hnil in Hlen. simpl in Hlen. lia. }
    assert (Hshort : ∃ chosen,
      sentences !!! 0 +:+ " " +:+ py_last sentences = join " " chosen ∧
      2 ≤ length chosen ≤ 4 ∧ head chosen = Some (sentences !!! 0) ∧
      ∀ s, s ∈ chosen → s ∈ sentences).
    { exists [sentences !!! 0; py_last sentences].
      split_and!; [done|simpl; lia|simpl; lia|done|].
      intros s [->|[->|[]%elem_of_nil]%elem_of_cons]%elem_of_cons; done. }
    set (two := [sentences !!! 0] ++ [sentences !!! (length sentences `div` 2)]).
    set (base := if decide (3 < length sentences ∧ py_last sentences ∉ two)
                 then two ++ [py_last sentences] else two).
    assert (Hbase : 2 ≤ length base ≤ 3 ∧
                    head base = Some (sentences !!! 0) ∧
                    ∀ s, s ∈ base → s ∈ sentences).
    { unfold base, two. case_decide; simpl; (split_and!; [lia|lia|done|]).
      - intros s [->|[->|[->|[]%elem_of_nil]%elem_of_cons]%elem_of_cons]%elem_of_cons; done.
      - intros s [->|[->|[]%elem_of_nil]%elem_of_cons]%elem_of_cons; done. }
    destruct Hbase as (Hb1 & Hb2 & Hb3).
    assert (Hins : 2 ≤ length (insert_at_1 (sentences !!! (length sentences `div` 4)) base) ≤ 4 ∧
                   head (insert_at_1 (sentences !!! (length sentences `div` 4)) base)
                   = Some (sentences !!! 0) ∧
                   ∀ s, s ∈ insert_at_1 (sentences !!! (length sentences `div` 4)) base
                        → s ∈ sentences).
    { unfold insert_at_1. destruct base as [|b0 base']; [simpl in Hb1; lia|].
      simpl in *. rewrite drop_0. split_and!; [lia|lia|done|].
      intros s [->|[->|Hs]%elem_of_cons]%elem_of_cons.
      - apply Hb3. by left.
      - done.
      - apply Hb3. by right. }
    destruct Hins as (Hi1 & Hi2 & Hi3).
    repeat case_decide; try exact Hshort.
    + exists (insert_at_1 (sentences !!! (length sentences `div` 4)) base).
      split_and!; [done|apply Hi1|apply Hi1|done|done].
    + exists base. split_and!; [done|lia|lia|done|done].
    + exists base. split_and!; [done|lia|lia|done|done].
Qed.

(** Witness of X14: a text of one hundred words in four sentences. *)
Lemma summarize_text_extractive_witness :
  ¬ (word_count SampleStr.long_text < 100
     ∨ length (sentences_of SampleStr.long_text) ≤ 3) ∧
  ∃ chosen, summarize_text SampleStr.long_text 512 100 = join " " chosen ∧
            2 ≤ length chosen ≤ 4.
Proof.
  assert (Hlong : ¬ (word_count SampleStr.long_text < 100
                     ∨ length (sentences_of SampleStr.long_text) ≤ 3)).
  { vm_compute. intros [Hlt|Hle]; lia. }
  split; [exact Hlong|].
  destruct (proj2 (summarize_text_extractive SampleStr.long_text 512 100) Hlong)
    as (chosen & Heq & Hlen & _).
  exists chosen. exact (conj Heq Hlen).
Defined.


(** ** Answering a question *)

Section answer_facts.
Context `{Numpy} `{PyStr}.

Lemma answer_question_run question st :
  answer_question question st
  = match VectorDB.search question 3 st with
    | (Ok ls, st1) => (Ok (answer_of question (heap st1) ls), st1)
    | (Raise e, st1) => (Raise e, st1)
    end.
Proof.
  unfold answer_question. unfold_monad.
  destruct (VectorDB.search question 3 st) as [[ls|e] st1]; [|done].
  simpl. by destruct ls.
Qed.

Lemma answer_of_sentence question h ls :
  let a := answer_of question h ls in
  ls ≠ [] →
  Answer.answer a ∈ sentences_of (Answer.context a) ∨
  (sentences_of (Answer.context a) = [] ∧
   Answer.answer a = "No answer found.").
Proof.
  intros a Hne. destruct ls as [|first ls]; [done|]. unfold a. simpl.
  set (ctx := if decide _ then _ else _).
  destruct (filter _ (sentences_of ctx)) as [|s rel] eqn:Hrel.
  - destruct (sentences_of ctx) as [|s ss]; [by right|]. left. by left.
  - left. assert (Hs : s ∈ filter (λ sentence,
        1 < size (word_set question ∩ word_set sentence)) (sentences_of ctx))
      by (rewrite Hrel; left).
    by apply list_elem_of_filter in Hs as [_ ?].
Qed.

Lemma answer_of_fields question h first ls :
  let a := answer_of question h (first :: ls) in
  let contents := (λ l, content (deref h l)) <$> (first :: ls) in
  Answer.source a = source (deref h first) ∧
  Answer.topic a = topic (deref h first) ∧
  (Answer.context a = join " " contents ∨
   (500 < word_count (join " " contents) ∧
    Answer.context a = content (deref h first))).
Proof.
  intros a contents. unfold a, answer_of.
  cbn [Answer.source Answer.topic Answer.context]. fold contents.
  split_and!; [done|done|]. case_decide; [right|left]; done.
Qed.

End answer_facts.


(** X15: on a store without records [answer_question] returns the fixed
    answer with empty context, source and topic, and changes nothing,
    whatever the dimension of the index.  On a store whose index has
    dimension 64 and whose records are allocated objects it returns an
    answer.  On a store with records whose index has another dimension it
    raises the [AssertionError] of the index, leaving records, index and
    files as they were. *)
Theorem answer_question_no_records `{Numpy} `{PyStr} (st : state)
    (question : string) :
  (metadata st = [] →
   answer_question question st = (Ok no_information, st)) ∧
  (well_formed st →
   ∃ a st', answer_question question st = (Ok a, st')) ∧
  (metadata st ≠ [] → faiss.d (index st) ≠ 64 →
   ∃ st', answer_question question st = (Raise AssertionError, st') ∧
          index st' = index st ∧ metadata st' = metadata st ∧
          files st' = files st ∧ heap st' = heap st).
Proof.
  split_and!.
  - intros Hmd. rewrite answer_question_run.
    by rewrite search_empty_run.
  - intros Hwf. rewrite answer_question_run.
    destruct (decide (metadata st = [])) as [Hmd|Hmd].
    + rewrite search_empty_run by done. eauto.
    + rewrite search_run by (done || lia). eauto.
  - intros Hmd Hd. rewrite answer_question_run.
    rewrite search_raise_dim_run by done. eexists. split; [reflexivity|].
    done.
Qed.

(** Witness of X15: the scenario store before any note is added, and
    after; and the scenario store with an index of dimension 1 in place of
    its own. *)
Lemma answer_question_no_records_witness :
  metadata Scenario.loaded = [] ∧
  answer_question "Are cats mammals?" Scenario.loaded
  = (Ok no_information, Scenario.loaded) ∧
  well_formed Scenario.cats_dogs ∧
  (∃ a st', answer_question "Are cats mammals?" Scenario.cats_dogs
            = (Ok a, st')) ∧
  metadata (set_index (faiss.new 1) Scenario.cats_dogs) ≠ [] ∧
  faiss.d (index (set_index (faiss.new 1) Scenario.cats_dogs)) ≠ 64 ∧
  ∃ st', answer_question "Are cats mammals?"
           (set_index (faiss.new 1) Scenario.cats_dogs)
         = (Raise AssertionError, st').
Proof.
  assert (Hmd : metadata Scenario.loaded = []) by (vm_compute; reflexivity).
  assert (Hne : metadata (set_index (faiss.new 1) Scenario.cats_dogs) ≠ []).
  { vm_compute. discriminate. }
  assert (Hd : faiss.d (index (set_index (faiss.new 1) Scenario.cats_dogs))
               ≠ 64).
  { vm_compute. discriminate. }
  split; [exact Hmd|].
  split; [exact (proj1 (answer_question_no_records Scenario.loaded _) Hmd)|].
  split; [exact cats_dogs_well_formed|].
  split; [exact (proj1 (proj2 (answer_question_no_records
                                 Scenario.cats_dogs _))
                   cats_dogs_well_formed)|].
  split; [exact Hne|]. split; [exact Hd|].
  destruct (proj2 (proj2 (answer_question_no_records
                            (set_index (faiss.new 1) Scenario.cats_dogs)
                            "Are cats mammals?")) Hne Hd)
    as (st' & Hrun & _).
  exists st'. exact Hrun.
Defined.

(** X16: the answer comes from the search results.  With no result it is
    the fixed answer.  Otherwise source and topic are those of the first
    result, the nearest record returned; the context is the contents of the
    results joined by spaces, or the content of the first result when that
    has more than 500 words; the answer is a sentence of the context, or
    the text "No answer found." when the context has no sentence.  The
    records, the index and the files are as before. *)
Theorem answer_from_results `{Numpy} `{PyStr} (st : state)
    (question : string) (a : Answer.t) (st' : state) :
  allocated st →
  answer_question question st = (Ok a, st') →
  (hits st question 3 = [] → a = no_information) ∧
  (∀ p ps, hits st question 3 = p :: ps →
     let first := records st !!! Z.to_nat p.2 in
     let contents :=
       (λ q, content (records st !!! Z.to_nat q.2)) <$> (p :: ps) in
     Answer.source a = source first ∧
     Answer.topic a = topic first ∧
     (Answer.context a = join " " contents ∨
      (500 < word_count (join " " contents) ∧
       Answer.context a = content first)) ∧
     (Answer.answer a ∈ sentences_of (Answer.context a) ∨
      (sentences_of (Answer.context a) = [] ∧
       Answer.answer a = "No answer found."))) ∧
  index st' = index st ∧ metadata st' = metadata st ∧
  files st' = files st ∧ records st' = records st.
Proof.
  intros Hal Hrun. rewrite answer_question_run in Hrun.
  destruct (VectorDB.search question 3 st) as [[ls|e] st1] eqn:Hs; [|done].
  injection Hrun as <- <-.
  pose proof (search_results _ _ _ _ _ Hal Hs) as Hres.
  assert (Hframe : index st1 = index st ∧ metadata st1 = metadata st ∧
                   files st1 = files st ∧ records st1 = records st).
  { destruct (search_frame st question 3) as (o & new & g & Hrun & _).
    rewrite Hrun in Hs. injection Hs as _ <-. simpl.
    split_and!; try done. unfold records. simpl. by apply fmap_deref_app. }
  split_and!; try apply Hframe.
  - intros Hnil. rewrite Hnil in Hres. apply fmap_nil_inv in Hres.
    by rewrite Hres.
  - intros p ps Hhits first contents. rewrite Hhits in Hres.
    destruct ls as [|l ls]; [done|].
    assert (Hcontents : (λ r, content (deref (heap st1) r)) <$> (l :: ls)
                        = contents).
    { unfold contents.
      change ((λ r, content (deref (heap st1) r)) <$> (l :: ls))
        with (content ∘ deref (heap st1) <$> (l :: ls)).
      rewrite list_fmap_compose, Hres, <- list_fmap_compose. done. }
    rewrite !fmap_cons in Hres. injection Hres as Hl _.
    destruct (answer_of_fields question (heap st1) l ls)
      as (Hsrc & Htop & Hctx).
    rewrite Hcontents in Hctx. rewrite Hl in Hsrc, Htop, Hctx.
    split_and!; [exact Hsrc|exact Htop|exact Hctx|].
    by apply answer_of_sentence.
Qed.

(** Witness of X16: a question put to the scenario store. *)
Lemma answer_from_results_witness :
  allocated Scenario.cats_dogs ∧
  (answer_question "Are cats mammals?" Scenario.cats_dogs).1
  = Ok {| Answer.answer := "Cats are mammals.";
          Answer.context :=
            "Cats are mammals. They purr. Dogs are mammals. They bark.";
          Answer.source := "manual";
          Answer.topic := "Cats" |} ∧
  records (after (answer_question "Are cats mammals?") Scenario.cats_dogs)
  = records Scenario.cats_dogs.
Proof.
  assert (Hfst : (answer_question "Are cats mammals?" Scenario.cats_dogs).1
    = Ok {| Answer.answer := "Cats are mammals.";
            Answer.context :=
              "Cats are mammals. They purr. Dogs are mammals. They bark.";
            Answer.source := "manual";
            Answer.topic := "Cats" |}) by (vm_compute; reflexivity).
  split; [exact cats_dogs_allocated|]. split; [exact Hfst|].
  exact (proj2 (proj2 (proj2 (proj2 (proj2
    (answer_from_results Scenario.cats_dogs "Are cats mammals?" _ _
       cats_dogs_allocated (run_after _ _ _ Hfst))))))).
Defined.


(** * Properties of the callers *)

(** ** Adding, then browsing *)

(** X17: a note added through [add_to_vector_db] is found at once: it is
    the last record that [get_by_topic] returns for its topic,
    [get_all_topics] lists the topic, and the records of every other topic
    are as before. *)
Theorem add_then_browse `{Numpy} (st : state)
    (tp ct src profile now : string) (idx : Z) (st' : state) :
  allocated st →
  add_to_vector_db tp ct src profile now st = (Ok idx, st') →
  idx = Z.of_nat (length (records st)) ∧
  (∃ ls, VectorDB.get_by_topic tp st' = (Ok ls, st') ∧
         deref (heap st') <$> ls
         = with_topic tp (records st) ++
           [{| id := idx; topic := tp; content := ct; source := src;
               date := now; score := None |}]) ∧
  (∃ ts, VectorDB.get_all_topics st' = (Ok ts, st') ∧ tp ∈ ts) ∧
  (∀ t, t ≠ tp →
        ∃ ls, VectorDB.get_by_topic t st' = (Ok ls, st') ∧
              deref (heap st') <$> ls = with_topic t (records st)).
Proof.
  intros Hal Hrun. unfold add_to_vector_db in Hrun.
  pose proof (add_Ok_inv _ _ _ _ _ _ _ _ Hrun) as He.
  rewrite add_run in Hrun by done. injection Hrun as <- <-.
  set (r := {| id := Z.of_nat (length (metadata st)); topic := tp;
               content := ct; source := src; date := now; score := None |}).
  set (st' := {| heap := heap st ++ [r] |}).
  assert (Hrec : records st' = records st ++ [r]).
  { unfold records at 1. simpl. by apply records_snoc. }
  split_and!.
  - by rewrite length_records.
  - eexists. split; [apply get_by_topic_run|].
    rewrite with_topic_deref. fold (records st'). rewrite Hrec.
    unfold with_topic. rewrite filter_app, filter_cons, filter_nil.
    by rewrite decide_True.
  - eexists. split; [apply get_all_topics_run|].
    apply topics_elem. exists r. split; [|done].
    rewrite Hrec. apply elem_of_app. right. by left.
  - intros t Hne. eexists. split; [apply get_by_topic_run|].
    rewrite with_topic_deref. fold (records st'). rewrite Hrec.
    unfold with_topic. rewrite filter_app, filter_cons, filter_nil.
    rewrite decide_False by (simpl; congruence). by rewrite app_nil_r.
Qed.

(** Witness of X17: the second note of the scenario. *)
Lemma add_then_browse_witness :
  allocated Scenario.cats ∧
  add_to_vector_db "Dogs" "Dogs are mammals. They bark." "manual" "default"
    "2024-01-01 10:05:00" Scenario.cats = (Ok 1%Z, Scenario.cats_dogs) ∧
  ∃ ts, VectorDB.get_all_topics Scenario.cats_dogs
        = (Ok ts, Scenario.cats_dogs) ∧ "Dogs" ∈ ts.
Proof.
  assert (Hal : allocated Scenario.cats) by (vm_compute; repeat constructor).
  assert (Hrun : add_to_vector_db "Dogs" "Dogs are mammals. They bark."
                   "manual" "default" "2024-01-01 10:05:00" Scenario.cats
                 = (Ok 1%Z, Scenario.cats_dogs)).
  { refine (run_after (VectorDB.add _ _ _ _ _) Scenario.cats 1%Z _).
    vm_compute. reflexivity. }
  split; [exact Hal|]. split; [exact Hrun|].
  exact (proj1 (proj2 (proj2 (add_then_browse Scenario.cats "Dogs"
           "Dogs are mammals. They bark." "manual" "default"
           "2024-01-01 10:05:00" 1%Z Scenario.cats_dogs Hal Hrun)))).
Defined.

(** ** Items per topic *)

Section count_facts.
Context `{Numpy}.

Lemma foldl_count_topic rs : ∀ counts t,
  foldl count_topic counts rs !! t
  = match length (with_topic t rs) with
    | O => counts !! t
    | S n => Some (default 0 (counts !! t) + S n)
    end.
Proof.
  induction rs as [|r rs IH]; intros counts t; [done|].
  simpl. rewrite IH. unfold with_topic. rewrite filter_cons.
  unfold count_topic at 1 2.
  destruct (decide (topic r = t)) as [->|Hne].
  - rewrite lookup_insert_eq. simpl.
    destruct (length (filter (λ r0, topic r0 = t) rs)); f_equal; lia.
  - by rewrite lookup_insert_ne.
Qed.

End count_facts.

(** X18: the count that [create_knowledge_network] keeps for a topic is the
    number of records [get_by_topic] returns for it; a topic has a count
    exactly when [get_all_topics] lists it, and the count is then at least
    1. *)
Theorem topic_counts_exact `{Numpy} (st : state) (t : string) :
  ∃ ls ts, VectorDB.get_by_topic t st = (Ok ls, st) ∧
           VectorDB.get_all_topics st = (Ok ts, st) ∧
           default 0 (topic_counts st !! t) = length ls ∧
           (is_Some (topic_counts st !! t) ↔ t ∈ ts) ∧
           (t ∈ ts ↔ 0 < length ls).
Proof.
  eexists _, _. split; [apply get_by_topic_run|].
  split; [apply get_all_topics_run|].
  assert (Hlen : length (filter (λ l, topic (deref (heap st) l) = t)
                           (metadata st))
                 = length (with_topic t (records st))).
  { unfold records. rewrite <- with_topic_deref. by rewrite length_fmap. }
  assert (Hin : t ∈ elements (list_to_set (topic <$> records st) : gset string)
                ↔ 0 < length (with_topic t (records st))).
  { rewrite topics_elem. split.
    - intros (r & Hr & Ht).
      assert (Hrt : r ∈ with_topic t (records st))
        by by apply list_elem_of_filter.
      destruct (with_topic t (records st)); [by apply elem_of_nil in Hrt|].
      simpl. lia.
    - intros Hpos. destruct (with_topic t (records st)) as [|r rs] eqn:Hw;
        [simpl in Hpos; lia|].
      assert (Hrt : r ∈ with_topic t (records st)) by (rewrite Hw; left).
      apply list_elem_of_filter in Hrt as [? ?]. eauto. }
  rewrite Hlen, Hin. unfold topic_counts. rewrite foldl_count_topic.
  rewrite lookup_empty.
  destruct (length (with_topic t (records st))) as [|n]; simpl.
  - split_and!; [done| |done]. split; [by intros [? [=]]|lia].
  - split_and!; [lia| |done]. split; [lia|eauto].
Qed.

(** ** Splitting and joining *)

Section split_facts.

Lemma split_aux_skip sep pre : ∀ s,
  split_aux sep (String.length pre) (pre +:+ s) = split_aux sep 0 s.
Proof.
  induction pre as [|c pre IH]; intros s; simpl; [|apply IH].
  destruct s; reflexivity.
Qed.

Lemma prefix_append sep : ∀ s,
  String.prefix sep s = true → ∃ s2, s = sep +:+ s2.
Proof.
  induction sep as [|c sep IH]; intros s Hp; simpl in *.
  - by exists s.
  - destruct s as [|c' s]; [done|]. cbn [String.prefix] in Hp.
    destruct (Ascii.ascii_dec c c') as [->|]; [|discriminate Hp].
    destruct (IH s Hp) as [s2 ->]. by exists s2.
Qed.

Lemma length_string_app (s1 s2 : string) :
  String.length (s1 +:+ s2) = String.length s1 + String.length s2.
Proof. induction s1 as [|c s1 IH]; simpl; [done|by rewrite IH]. Qed.

Lemma join_cons_char sep c p ps :
  join sep (String c p :: ps) = String c (join sep (p :: ps)).
Proof. by destruct ps. Qed.

Lemma split_aux_join sep n : ∀ s,
  sep ≠ EmptyString → String.length s ≤ n →
  join sep ((split_aux sep 0 s).1 :: (split_aux sep 0 s).2) = s.
Proof.
  induction n as [|n IH]; intros s Hsep Hn.
  - destruct s; [done|simpl in Hn; lia].
  - destruct s as [|c s']; [done|]. simpl in Hn.
    cbn [split_aux].
    destruct (String.prefix sep (String c s')) eqn:Hp.
    + apply prefix_append in Hp as [s2 Hs2].
      destruct sep as [|c0 sep']; [done|]. simpl in Hs2.
      injection Hs2 as -> ->.
      cbn [String.length]. replace (S (String.length sep') - 1)
        with (String.length sep') by lia.
      rewrite split_aux_skip.
      assert (Hlen : String.length s2 ≤ n).
      { rewrite length_string_app in Hn. lia. }
      specialize (IH s2 Hsep Hlen).
      destruct (split_aux _ 0 s2) as [p ps]. cbn [fst snd] in *.
      change (join ?a (EmptyString :: p :: ps))
        with (a +:+ join a (p :: ps)).
      by rewrite IH.
    + specialize (IH s' Hsep ltac:(lia)).
      destruct (split_aux sep 0 s') as [p ps]. cbn [fst snd] in *.
      rewrite join_cons_char. by rewrite IH.
Qed.

End split_facts.

(** X19: splitting loses nothing: the pieces of a text split at a
    non-empty separator, joined by that separator, are the text; so the
    pieces that [summarize_text] and [answer_question] take at ". " cover
    the text in order. *)
Theorem split_join (sep s : string) :
  sep ≠ EmptyString →
  split sep s ≠ [] ∧ join sep (split sep s) = s.
Proof.
  intros Hsep. unfold split.
  pose proof (split_aux_join sep (String.length s) s Hsep (le_n _)) as Hj.
  destruct (split_aux sep 0 s) as [p ps]. split; [done|exact Hj].
Qed.

(** Witness of X19: a text of two sentences. *)
Lemma split_join_witness :
  ". " ≠ EmptyString ∧
  split ". " "Cats are mammals. They purr." = ["Cats are mammals"; "They purr."] ∧
  join ". " (split ". " "Cats are mammals. They purr.")
  = "Cats are mammals. They purr.".
Proof.
  assert (Hsep : ". " ≠ EmptyString) by discriminate.
  split; [exact Hsep|]. split; [vm_compute; reflexivity|].
  exact (proj2 (split_join ". " "Cats are mammals. They purr." Hsep)).
Defined.
